(** * Theme state manager: the dark-mode scripts of the blog

    The repository publishes its theme-handling scripts inside two posts:

    - [src/content/blog/dark-mode-implementation.md]: the inline head
      script ([getThemePreference] and the class update), the [storage]
      event listener, and the [DarkModeToggle] component script
      ([getCurrentTheme], [updateIcons], the click listener);
    - [src/content/blog/astro-blog-guide.md]: a second version of the inline
      head script.

    The scripts are embedded as programs of a small state-and-exception
    monad over the ambient objects they touch: [localStorage], the media
    query [(prefers-color-scheme: dark)], and the class lists of the root
    element and of the two icons. *)

From stdpp Require Import base strings gmap list sorting.

Local Open Scope string_scope.
Local Open Scope list_scope.

(** ** JavaScript values and exceptions *)

(** The values the scripts handle are strings and [null]
    ([Storage.getItem] and [StorageEvent.newValue] are "string or null"). *)
Inductive value : Type :=
  | VNull
  | VStr (s : string).

#[global] Instance value_eq_dec : EqDecision value.
Proof. solve_decision. Defined.

(** [ToBoolean]: [null] and the empty string are falsy. *)
Definition truthy (v : value) : bool :=
  match v with
  | VNull => false
  | VStr s => negb (bool_decide (s = ""))
  end.

(** [a === b]. *)
Definition strict_eq (a b : value) : bool := bool_decide (a = b).

(** What a statement can throw here: dereferencing a missing [localStorage]
    global, and the [DOMException]s of the storage methods ([SecurityError],
    [QuotaExceededError]). *)
Inductive exn : Type :=
  | ReferenceError
  | DOMException.

Inductive completion (A : Type) : Type :=
  | Return (a : A)
  | Throw (e : exn).
Arguments Return {A} a.
Arguments Throw {A} e.

(** ** The ambient objects *)

(** A storage area: its key/value pairs, and whether its read / write
    methods throw (disabled storage, restricted context, exhausted quota). *)
Record StorageArea : Type := mkStorageArea {
  items : gmap string string;
  readThrows : bool;
  writeThrows : bool
}.

(** One open view of the site: the OS colour-scheme signal it sees and the
    class lists of the three elements the scripts update. *)
Record Page : Type := mkPage {
  prefersDark : bool;
  rootClassList : list string;
  sunIconClassList : list string;
  moonIconClassList : list string
}.

(** The world of one running script.  [localStorage = None] is the state in
    which [typeof localStorage] is ['undefined'].  [setItemLog] records, in
    order, every [setItem] call that went through. *)
Record World : Type := mkWorld {
  localStorage : option StorageArea;
  setItemLog : list (string * string);
  page : Page
}.

(** ** [DOMTokenList] *)

Module classList.

Definition contains (tok : string) (cl : list string) : bool :=
  bool_decide (tok ∈ cl).

Definition add (tok : string) (cl : list string) : list string :=
  if contains tok cl then cl else cl ++ [tok].

Definition remove (tok : string) (cl : list string) : list string :=
  filter (λ t, t ≠ tok) cl.

End classList.

(** [classList[isDark ? 'add' : 'remove']('dark')] on a class list. *)
Definition setDarkClass (isDark : bool) (cl : list string) : list string :=
  if isDark then classList.add "dark" cl else classList.remove "dark" cl.

(** The document marker: is the [dark] class on the root element? *)
Definition marker (p : Page) : bool := classList.contains "dark" (rootClassList p).

(** ** The script monad *)

Definition JS (A : Type) : Type := World → completion A * World.

Definition ret {A} (a : A) : JS A := λ w, (Return a, w).

Definition bind {A B} (m : JS A) (k : A → JS B) : JS B :=
  λ w, match m w with
       | (Return a, w') => k a w'
       | (Throw e, w') => (Throw e, w')
       end.

Notation "'do' x <- m ; k" := (bind m (λ x, k))
  (at level 10, x name, m at level 100, k at level 200).
Notation "m ;; k" := (bind m (λ _, k))
  (at level 100, k at level 200, right associativity).

(** *** Primitive operations *)

(** [typeof localStorage !== 'undefined'] *)
Definition localStorage_defined : JS bool :=
  λ w, (Return (bool_decide (is_Some (localStorage w))), w).

(** [localStorage.getItem(k)] *)
Definition getItem (k : string) : JS value :=
  λ w, match localStorage w with
       | None => (Throw ReferenceError, w)
       | Some a =>
           if readThrows a then (Throw DOMException, w)
           else (Return (from_option VStr VNull (items a !! k)), w)
       end.

(** [localStorage.setItem(k, v)] *)
Definition setItem (k v : string) : JS unit :=
  λ w, match localStorage w with
       | None => (Throw ReferenceError, w)
       | Some a =>
           if writeThrows a then (Throw DOMException, w)
           else (Return (),
                 {| localStorage :=
                      Some {| items := <[k := v]> (items a);
                              readThrows := readThrows a;
                              writeThrows := writeThrows a |};
                    setItemLog := setItemLog w ++ [(k, v)];
                    page := page w |})
       end.

(** [window.matchMedia('(prefers-color-scheme: dark)').matches] *)
Definition matchMedia_dark : JS bool :=
  λ w, (Return (prefersDark (page w)), w).

Definition modify_page (f : Page → Page) : JS unit :=
  λ w, (Return (),
        {| localStorage := localStorage w;
           setItemLog := setItemLog w;
           page := f (page w) |}).

(** [document.documentElement.classList[isDark ? 'add' : 'remove']('dark')] *)
Definition root_setDarkClass (isDark : bool) : JS unit :=
  modify_page (λ p,
    {| prefersDark := prefersDark p;
       rootClassList := setDarkClass isDark (rootClassList p);
       sunIconClassList := sunIconClassList p;
       moonIconClassList := moonIconClassList p |}).

Definition moonIcon_classList (f : list string → list string) : JS unit :=
  modify_page (λ p,
    {| prefersDark := prefersDark p;
       rootClassList := rootClassList p;
       sunIconClassList := sunIconClassList p;
       moonIconClassList := f (moonIconClassList p) |}).

Definition sunIcon_classList (f : list string → list string) : JS unit :=
  modify_page (λ p,
    {| prefersDark := prefersDark p;
       rootClassList := rootClassList p;
       sunIconClassList := f (sunIconClassList p);
       moonIconClassList := moonIconClassList p |}).

(** [matches ? 'dark' : 'light'] *)
Definition systemTheme : JS value :=
  do d <- matchMedia_dark;
  ret (VStr (if d then "dark" else "light")).

(** ** dark-mode-implementation.md, step 2: the inline head script *)

(** Lines 57-66. *)
Definition getThemePreference : JS value :=
  do present <- (do defined <- localStorage_defined;
                 if defined
                 then (do v <- getItem "theme"; ret (truthy v))
                 else ret false);
  if present then getItem "theme" else systemTheme.

(** Lines 69-70. *)
Definition applyTheme (theme : value) : JS unit :=
  root_setDarkClass (strict_eq theme (VStr "dark")).

(** Lines 56-71: the whole script. *)
Definition inlineScript : JS unit :=
  do theme <- getThemePreference;
  applyTheme theme.

(** ** astro-blog-guide.md: the other published inline head script *)

Module Guide.

(** Lines 205-212. *)
Definition getThemePreference : JS value :=
  do defined <- localStorage_defined;
  if defined then getItem "theme" else systemTheme.

(** Lines 204-216. *)
Definition inlineScript : JS unit :=
  do theme <- getThemePreference;
  applyTheme theme.

End Guide.

(** ** dark-mode-implementation.md, step 3: the storage listener *)

Record StorageEvent : Type := mkStorageEvent {
  key : value;
  oldValue : value;
  newValue : value
}.

(** Lines 92-97. *)
Definition onStorage (e : StorageEvent) : JS unit :=
  if strict_eq (key e) (VStr "theme")
  then root_setDarkClass (strict_eq (newValue e) (VStr "dark"))
  else ret ().

(** ** dark-mode-implementation.md, step 4: DarkModeToggle.astro *)

(** Lines 120-123: [getItem('theme') || (matches ? 'dark' : 'light')]. *)
Definition getCurrentTheme : JS value :=
  do v <- getItem "theme";
  if truthy v then ret v else systemTheme.

(** Lines 125-133. *)
Definition updateIcons (theme : value) : JS unit :=
  if strict_eq theme (VStr "dark")
  then (moonIcon_classList (classList.remove "hidden");;
        sunIcon_classList (classList.add "hidden"))
  else (moonIcon_classList (classList.add "hidden");;
        sunIcon_classList (classList.remove "hidden")).

(** Line 136. *)
Definition initIcons : JS unit :=
  do theme <- getCurrentTheme;
  updateIcons theme.

(** Line 141: [currentTheme === 'dark' ? 'light' : 'dark']. *)
Definition opposite (currentTheme : value) : string :=
  if strict_eq currentTheme (VStr "dark") then "light" else "dark".

(** Lines 139-151: the click listener. *)
Definition onToggleClick : JS unit :=
  do currentTheme <- getCurrentTheme;
  let newTheme := opposite currentTheme in
  root_setDarkClass (strict_eq (VStr newTheme) (VStr "dark"));;
  setItem "theme" newTheme;;
  updateIcons (VStr newTheme).


(** ** Two views over one store *)

(** Two open views of the site share the storage area (and its write log);
    each has its own page. *)
Record Browser : Type := mkBrowser {
  sharedStorage : option StorageArea;
  sharedLog : list (string * string);
  viewA : Page;
  viewB : Page
}.

Definition runInA {A} (m : JS A) (b : Browser) : completion A * Browser :=
  let '(r, w) := m (mkWorld (sharedStorage b) (sharedLog b) (viewA b)) in
  (r, mkBrowser (localStorage w) (setItemLog w) (page w) (viewB b)).

Definition runInB {A} (m : JS A) (b : Browser) : completion A * Browser :=
  let '(r, w) := m (mkWorld (sharedStorage b) (sharedLog b) (viewB b)) in
  (r, mkBrowser (localStorage w) (setItemLog w) (viewA b) (page w)).

(** ** Vocabulary of the statements *)

(** The key/value pairs currently persisted (none without a store). *)
Definition stored (w : World) : gmap string string :=
  from_option items ∅ (localStorage w).

(** A store whose reads and writes go through. *)
Definition working (m : gmap string string) : StorageArea :=
  {| items := m; readThrows := false; writeThrows := false |}.

(** A page straight from the markup: no [dark] class, both icons hidden. *)
Definition freshPage (osDark : bool) : Page :=
  {| prefersDark := osDark;
     rootClassList := [];
     sunIconClassList := ["hidden"];
     moonIconClassList := ["hidden"] |}.

(** The result of running [m] in [w], and the world it leaves. *)
Definition result {A} (m : JS A) (w : World) : completion A := (m w).1.
Definition after {A} (m : JS A) (w : World) : World := (m w).2.

(** [m] returns ['dark'] or ['light']. *)
Definition returnsTheme (m : JS value) (w : World) : Prop :=
  result m w = Return (VStr "dark") ∨ result m w = Return (VStr "light").

(** [m] neither changes the storage area nor calls [setItem]. *)
Definition storeUntouched {A} (m : JS A) (w : World) : Prop :=
  localStorage (after m w) = localStorage w ∧
  setItemLog (after m w) = setItemLog w.

(** A toggle followed at once by a fresh resolve. *)
Definition toggleThenResolve : JS value :=
  onToggleClick;; getCurrentTheme.

(** Is the moon / sun icon visible, i.e. without the [hidden] class? *)
Definition moonShown (p : Page) : bool :=
  negb (classList.contains "hidden" (moonIconClassList p)).
Definition sunShown (p : Page) : bool :=
  negb (classList.contains "hidden" (sunIconClassList p)).

(** The store holds one of the two theme names under [theme]. *)
Definition validTheme (w : World) : Prop :=
  stored w !! "theme" = Some "dark" ∨ stored w !! "theme" = Some "light".

(** The world after [n] clicks on the toggle. Each click is an event of its
    own: what one click leaves is what the next one starts from. *)
Definition afterClicks (n : nat) (w : World) : World :=
  Nat.iter n (after onToggleClick) w.

(** A page load: a new document [p] over the store that [w] leaves. *)
Definition reload (p : Page) (w : World) : World :=
  {| localStorage := localStorage w; setItemLog := setItemLog w; page := p |}.

(** The data-model derivation of the spec, following its words:
    "computed from ThemePreference if present, else from the operating
    environment's reported color-scheme preference, defaulting to light". *)
Definition spec_EffectiveTheme (preference : value) (osDark : bool) : value :=
  match preference with
  | VStr s => VStr s
  | VNull => VStr (if osDark then "dark" else "light")
  end.

(** * The content collection and the feed *)

(** ** src/content/config.ts: the schema of a blog post *)

Module Content.

(** A front-matter value as the YAML parser hands it over. A key that is
    absent reads as [undefined]: [fm !! k = None]. *)
#[local] Unset Elimination Schemes.
Inductive fmValue : Type :=
  | FNull
  | FBool (b : bool)
  | FStr (s : string)
  | FNum (n : Z)
  | FDate (ms : Z)
  | FArr (l : list fmValue)
  | FObj.
#[local] Set Elimination Schemes.

(** The parsed [data] of an entry; dates are milliseconds since the epoch. *)
Record PostData : Type := mkPostData {
  title : string;
  description : string;
  pubDate : Z;
  updatedDate : option Z;
  heroImage : option string;
  category : string;
  tags : list string;
  lang : string;
  draft : bool
}.

(** The schema combinators the file uses: a parser takes the value under a
    key ([None] for [undefined]) and returns the parsed value or an issue
    ([None]). *)
Definition z_string (v : option fmValue) : option string :=
  match v with Some (FStr s) => Some s | _ => None end.

Definition z_boolean (v : option fmValue) : option bool :=
  match v with Some (FBool b) => Some b | _ => None end.

Definition z_enum (allowed : list string) (v : option fmValue) : option string :=
  match v with
  | Some (FStr s) => if bool_decide (s ∈ allowed) then Some s else None
  | _ => None
  end.

Definition z_array {A} (element : option fmValue → option A)
    (v : option fmValue) : option (list A) :=
  match v with
  | Some (FArr l) => mapM (λ x, element (Some x)) l
  | _ => None
  end.

(** [.optional()]: [undefined] passes, anything else goes to the inner type. *)
Definition z_optional {A} (inner : option fmValue → option A)
    (v : option fmValue) : option (option A) :=
  match v with
  | None => Some None
  | Some _ => Some <$> inner v
  end.

(** [.default(d)]: [undefined] is replaced by [d], then the inner type
    parses. *)
Definition z_default {A} (inner : option fmValue → option A) (d : fmValue)
    (v : option fmValue) : option A :=
  match v with
  | None => inner (Some d)
  | Some _ => inner v
  end.

(** The key [k] when its parser raised an issue. *)
Definition issue {A} (k : string) (r : option A) : list string :=
  match r with Some _ => [] | None => [k] end.

Section Schema.

(** [new Date(x)] followed by the validity test of [z.coerce.date()], on a
    defined input; how JavaScript turns each value into a date is left to
    this parameter. *)
Context (coerceDate : fmValue → option Z).

Definition z_coerce_date (v : option fmValue) : option Z :=
  match v with
  | None => None
  | Some x => coerceDate x
  end.

(** Lines 4-17: [z.object({...})]. Every key is parsed; the result is the
    data when no key raised an issue, and otherwise the keys that did, in
    the order of the schema. Keys outside the schema are not looked at. *)
Definition blogSchema (fm : gmap string fmValue) : PostData + list string :=
  let title := z_string (fm !! "title") in
  let description := z_string (fm !! "description") in
  let pubDate := z_coerce_date (fm !! "pubDate") in
  let updatedDate := z_optional z_coerce_date (fm !! "updatedDate") in
  let heroImage := z_optional z_string (fm !! "heroImage") in
  let category := z_default z_string (FStr "General") (fm !! "category") in
  let tags := z_default (z_array z_string) (FArr []) (fm !! "tags") in
  let lang := z_default (z_enum ["en"; "vi"]) (FStr "en") (fm !! "lang") in
  let draft := z_default z_boolean (FBool false) (fm !! "draft") in
  match title, description, pubDate, updatedDate, heroImage,
        category, tags, lang, draft with
  | Some t, Some d, Some p, Some u, Some h, Some c, Some ts, Some l, Some dr =>
      inl {| title := t; description := d; pubDate := p; updatedDate := u;
             heroImage := h; category := c; tags := ts; lang := l;
             draft := dr |}
  | _, _, _, _, _, _, _, _, _ =>
      inr (issue "title" title ++ issue "description" description ++
           issue "pubDate" pubDate ++ issue "updatedDate" updatedDate ++
           issue "heroImage" heroImage ++ issue "category" category ++
           issue "tags" tags ++ issue "lang" lang ++ issue "draft" draft)
  end.

End Schema.

(** The keys of the schema. *)
Definition schemaKeys : list string :=
  ["title"; "description"; "pubDate"; "updatedDate"; "heroImage";
   "category"; "tags"; "lang"; "draft"].

(** Parsed data written back as front matter: optional keys that are unset
    stay absent. *)
Definition toFrontmatter (d : PostData) : gmap string fmValue :=
  let optional (k : string) (o : option fmValue) (m : gmap string fmValue) :=
    match o with Some v => <[k := v]> m | None => m end in
  optional "updatedDate" (FDate <$> updatedDate d)
    (optional "heroImage" (FStr <$> heroImage d)
       (<["title" := FStr (title d)]>
          (<["description" := FStr (description d)]>
             (<["pubDate" := FDate (pubDate d)]>
                (<["category" := FStr (category d)]>
                   (<["tags" := FArr (FStr <$> tags d)]>
                      (<["lang" := FStr (lang d)]>
                         (<["draft" := FBool (draft d)]> ∅)))))))).

End Content.

(** The date coercion on the one input whose outcome is not in doubt:
    [new Date(d)] of a date [d] is [d]. Every other input is counted as an
    invalid date here; the examples only coerce dates. *)
Definition coerceDateOnly (v : Content.fmValue) : option Z :=
  match v with
  | Content.FDate ms => Some ms
  | _ => None
  end.

(** ** src/pages/rss.xml.ts: the feed *)

Module Rss.

(** An entry of the [blog] collection, as far as the feed reads it. *)
Record CollectionEntry : Type := mkEntry {
  slug : string;
  data : Content.PostData
}.

Record RSSFeedItem : Type := mkItem {
  itemTitle : string;
  itemPubDate : Z;
  itemDescription : string;
  link : string
}.

(** The options object handed to [rss(...)]. *)
Record RSSOptions : Type := mkOptions {
  title : string;
  description : string;
  site : string;
  items : list RSSFeedItem;
  customData : string;
  trailingSlash : bool
}.

(** Line 4: [import.meta.env.PUBLIC_BASE_PATH || '/tamntaptech1.github.io'];
    an unset variable is [None]. *)
Definition basePath (PUBLIC_BASE_PATH : option string) : string :=
  match PUBLIC_BASE_PATH with
  | Some s => if bool_decide (s = "") then "/tamntaptech1.github.io" else s
  | None => "/tamntaptech1.github.io"
  end.

(** Lines 13-18: the item of one post. *)
Definition feedItem (env : option string) (post : CollectionEntry) : RSSFeedItem :=
  {| itemTitle := Content.title (data post);
     itemPubDate := Content.pubDate (data post);
     itemDescription := Content.description (data post);
     link := basePath env +:+ "/blog/" +:+ slug post +:+ "/" |}.

(** Lines 6-22, up to the call of [rss]: [collection] is what
    [getCollection('blog')] holds, filtered by [({ data }) => !data.draft];
    [contextSite] is [context.site]. *)
Definition GET (env : option string) (contextSite : option string)
    (collection : list CollectionEntry) : RSSOptions :=
  let blog := filter (λ e, negb (Content.draft (data e))) collection in
  {| title := "Tam Nguyen | Personal Blog";
     description := "Personal blog of Tam Nguyen - Software Developer";
     site := default "https://tamntaptech1.github.io" contextSite;
     items := feedItem env <$> blog;
     customData := "<language>en-us</language>";
     trailingSlash := false |}.

End Rss.

(** * Properties *)

(** ** The monad and the primitives *)

Ltac js_unfold :=
  unfold storeUntouched, returnsTheme, stored, result, after, toggleThenResolve,
    onToggleClick, initIcons, updateIcons, getCurrentTheme, onStorage,
    Guide.inlineScript, Guide.getThemePreference, inlineScript, applyTheme,
    getThemePreference, systemTheme, sunIcon_classList, moonIcon_classList,
    root_setDarkClass, modify_page, matchMedia_dark, setItem, getItem,
    localStorage_defined, bind, ret in *.

Ltac js_simpl := js_unfold; simpl in *.

(** Run a script along the facts [Hs], [Hr] about the store. *)
Ltac js_run Hs Hr := js_simpl; repeat (first [rewrite Hs | rewrite Hr]; simpl).

Lemma bind_Return {A B} (m : JS A) (k : A → JS B) w a w' :
  m w = (Return a, w') → bind m k w = k a w'.
Proof. intros H. unfold bind. by rewrite H. Qed.

Lemma bind_Throw {A B} (m : JS A) (k : A → JS B) w e w' :
  m w = (Throw e, w') → bind m k w = (Throw e, w').
Proof. intros H. unfold bind. by rewrite H. Qed.

Lemma truthy_VStr s : truthy (VStr s) = true ↔ s ≠ "".
Proof.
  simpl. rewrite negb_true_iff, bool_decide_eq_false. done.
Qed.

Lemma strict_eq_true a b : strict_eq a b = true ↔ a = b.
Proof. unfold strict_eq. apply bool_decide_eq_true. Qed.

Lemma strict_eq_refl a : strict_eq a a = true.
Proof. by apply strict_eq_true. Qed.

(** ** Class lists *)

Lemma contains_add tok cl : classList.contains tok (classList.add tok cl) = true.
Proof.
  unfold classList.add. destruct (classList.contains tok cl) eqn:E; [done|].
  apply bool_decide_eq_true, elem_of_app. right. by apply list_elem_of_singleton.
Qed.

Lemma contains_remove tok cl :
  classList.contains tok (classList.remove tok cl) = false.
Proof.
  apply bool_decide_eq_false. unfold classList.remove.
  rewrite list_elem_of_filter. by intros [Hne _].
Qed.

Lemma add_add tok cl :
  classList.add tok (classList.add tok cl) = classList.add tok cl.
Proof.
  unfold classList.add at 1. by rewrite contains_add.
Qed.

Lemma remove_remove tok cl :
  classList.remove tok (classList.remove tok cl) = classList.remove tok cl.
Proof.
  unfold classList.remove.
  induction cl as [|c cl IH]; [done|].
  rewrite filter_cons. case_decide as Hc; [|done].
  rewrite filter_cons. case_decide as Hc'; [|done]. by rewrite IH.
Qed.

Lemma setDarkClass_idem b cl :
  setDarkClass b (setDarkClass b cl) = setDarkClass b cl.
Proof. destruct b; simpl; [apply add_add | apply remove_remove]. Qed.

Lemma contains_setDarkClass b cl :
  classList.contains "dark" (setDarkClass b cl) = b.
Proof. destruct b; simpl; [apply contains_add | apply contains_remove]. Qed.

(** C8. [applyTheme] is idempotent: for every theme value and every
    starting world, applying the theme twice in a row completes and leaves
    exactly the world (so in particular the root class list and the
    document marker) that applying it once leaves. *)
Theorem applyTheme_idempotent (theme : value) (w : World) :
  (applyTheme theme;; applyTheme theme) w = applyTheme theme w ∧
  marker (page (after (applyTheme theme;; applyTheme theme) w))
    = marker (page (after (applyTheme theme) w)).
Proof.
  assert ((applyTheme theme;; applyTheme theme) w = applyTheme theme w) as E.
  { js_simpl. by rewrite setDarkClass_idem. }
  split; [done|]. unfold after. by rewrite E.
Qed.

(** ** Reading the preference *)

Section ReadableStore.

Context (w : World) (a : StorageArea).
Hypothesis Hs : localStorage w = Some a.
Hypothesis Hr : readThrows a = false.

(** What the two resolvers compute from a store that can be read. *)
Let resolved : value :=
  let v := from_option VStr VNull (items a !! "theme") in
  if truthy v then v
  else VStr (if prefersDark (page w) then "dark" else "light").

Lemma getItem_readable k :
  getItem k w = (Return (from_option VStr VNull (items a !! k)), w).
Proof. unfold getItem. by rewrite Hs, Hr. Qed.

Lemma getCurrentTheme_readable : getCurrentTheme w = (Return resolved, w).
Proof.
  unfold getCurrentTheme.
  rewrite (bind_Return _ _ _ _ _ (getItem_readable "theme")).
  subst resolved. simpl. by destruct (truthy _).
Qed.

Lemma getThemePreference_readable : getThemePreference w = (Return resolved, w).
Proof.
  subst resolved. js_run Hs Hr.
  destruct (truthy _) eqn:E; simpl; [|done]. by js_run Hs Hr.
Qed.

End ReadableStore.

Lemma getItem_denied k w a :
  localStorage w = Some a → readThrows a = true →
  getItem k w = (Throw DOMException, w).
Proof. intros Hs Hr. unfold getItem. by rewrite Hs, Hr. Qed.

Lemma getThemePreference_undefined w :
  localStorage w = None →
  getThemePreference w =
    (Return (VStr (if prefersDark (page w) then "dark" else "light")), w).
Proof. intros Hs. js_simpl. by rewrite Hs. Qed.

Lemma getThemePreference_denied w a :
  localStorage w = Some a → readThrows a = true →
  getThemePreference w = (Throw DOMException, w).
Proof. intros Hs Hr. by js_run Hs Hr. Qed.

(** Resolving never changes the world. *)
Lemma getCurrentTheme_pure w : after getCurrentTheme w = w.
Proof.
  js_simpl. destruct (localStorage w) as [a|]; [|done].
  destruct (readThrows a); [done|]. simpl. by destruct (truthy _).
Qed.

Lemma getThemePreference_pure w : after getThemePreference w = w.
Proof.
  unfold after. destruct (localStorage w) as [a|] eqn:Hs.
  - destruct (readThrows a) eqn:Hr.
    + by rewrite (getThemePreference_denied w a).
    + by rewrite (getThemePreference_readable w a).
  - by rewrite getThemePreference_undefined.
Qed.

Lemma Guide_getThemePreference_defined w a :
  localStorage w = Some a →
  Guide.getThemePreference w = getItem "theme" w.
Proof.
  intros Hs. unfold Guide.getThemePreference, bind, localStorage_defined.
  by rewrite Hs.
Qed.

Lemma Guide_getThemePreference_undefined w :
  localStorage w = None →
  Guide.getThemePreference w =
    (Return (VStr (if prefersDark (page w) then "dark" else "light")), w).
Proof.
  intros Hs. unfold Guide.getThemePreference, bind, localStorage_defined.
  by rewrite Hs.
Qed.

Lemma getItem_pure k w : after (getItem k) w = w.
Proof.
  unfold after, getItem. destruct (localStorage w) as [a|]; [|done].
  by destruct (readThrows a).
Qed.

Lemma Guide_getThemePreference_pure w : after Guide.getThemePreference w = w.
Proof.
  unfold after. destruct (localStorage w) as [a|] eqn:Hs.
  - rewrite (Guide_getThemePreference_defined w a Hs). apply getItem_pure.
  - by rewrite Guide_getThemePreference_undefined.
Qed.

(** ** The toggle *)

Lemma opposite_cases T : opposite T = "dark" ∨ opposite T = "light".
Proof. unfold opposite. destruct (strict_eq _ _); auto. Qed.

Lemma opposite_dark : opposite (VStr "dark") = "light".
Proof. done. Qed.

Lemma opposite_light : opposite (VStr "light") = "dark".
Proof. done. Qed.

(** A click on a store that can be read and written: the new theme is
    persisted under [theme], logged, and put on the root element. *)
Lemma onToggleClick_ok w a T :
  localStorage w = Some a → writeThrows a = false →
  result getCurrentTheme w = Return T →
  ∃ p, onToggleClick w =
         (Return (),
          {| localStorage :=
               Some {| items := <["theme" := opposite T]> (items a);
                       readThrows := false; writeThrows := false |};
             setItemLog := setItemLog w ++ [("theme", opposite T)];
             page := p |})
       ∧ marker p = strict_eq (VStr (opposite T)) (VStr "dark")
       ∧ prefersDark p = prefersDark (page w).
Proof.
  intros Hs Hw HT.
  assert (readThrows a = false) as Hr.
  { destruct (readThrows a) eqn:Hr; [|done].
    unfold result, getCurrentTheme in HT.
    by rewrite (bind_Throw _ _ _ _ _ (getItem_denied "theme" w a Hs Hr)) in HT. }
  unfold result in HT. rewrite (getCurrentTheme_readable w a Hs Hr) in HT.
  simpl in HT. injection HT as HT.
  unfold onToggleClick.
  rewrite (bind_Return _ _ _ _ _ (getCurrentTheme_readable w a Hs Hr)).
  simpl. rewrite HT.
  js_run Hs Hw. rewrite Hr.
  destruct (strict_eq (VStr (opposite T)) (VStr "dark")) eqn:E; simpl;
    (eexists; split; [reflexivity|]; split; [|done]);
    unfold marker; simpl; [apply contains_add | apply contains_remove].
Qed.

(** Scenario 4 of the spec: starting at light, a click persists ["dark"],
    puts the marker on the root element and switches the icons as
    [updateIcons('dark')] does. *)
Example onToggleClick_from_light :
  let w := mkWorld (Some (working ∅)) [] (freshPage false) in
  result getCurrentTheme w = Return (VStr "light") ∧
  result onToggleClick w = Return () ∧
  stored (after onToggleClick w) !! "theme" = Some "dark" ∧
  setItemLog (after onToggleClick w) = [("theme", "dark")] ∧
  marker (page (after onToggleClick w)) = true ∧
  moonIconClassList (page (after onToggleClick w)) = [] ∧
  sunIconClassList (page (after onToggleClick w)) = ["hidden"].
Proof. simpl. repeat split; reflexivity. Qed.

(** ** Who writes the store *)

Lemma storeUntouched_bind_pure {A B} (m : JS A) (k : A → JS B) w :
  after m w = w → (∀ a, storeUntouched (k a) w) →
  storeUntouched (bind m k) w.
Proof.
  unfold storeUntouched, after, bind. intros Hm Hk.
  destruct (m w) as [[a|e] w'] eqn:E; simpl in Hm; subst w'; [apply Hk|done].
Qed.

Lemma applyTheme_storeUntouched theme w : storeUntouched (applyTheme theme) w.
Proof. by js_simpl. Qed.

Lemma updateIcons_storeUntouched theme w : storeUntouched (updateIcons theme) w.
Proof. js_simpl. by destruct (strict_eq theme _). Qed.

Lemma onStorage_storeUntouched e w : storeUntouched (onStorage e) w.
Proof. js_simpl. by destruct (strict_eq (key e) _). Qed.

Lemma inlineScript_storeUntouched w : storeUntouched inlineScript w.
Proof.
  apply storeUntouched_bind_pure;
    [apply getThemePreference_pure | intros; apply applyTheme_storeUntouched].
Qed.

Lemma Guide_inlineScript_storeUntouched w : storeUntouched Guide.inlineScript w.
Proof.
  apply storeUntouched_bind_pure;
    [apply Guide_getThemePreference_pure | intros; apply applyTheme_storeUntouched].
Qed.

Lemma initIcons_storeUntouched w : storeUntouched initIcons w.
Proof.
  apply storeUntouched_bind_pure;
    [apply getCurrentTheme_pure | intros; apply updateIcons_storeUntouched].
Qed.

(** A click either leaves the store alone (the read or the write threw) or
    runs on a readable, writable store. *)
Lemma onToggleClick_cases w :
  storeUntouched onToggleClick w ∨
  ∃ a T, localStorage w = Some a ∧ writeThrows a = false ∧
         result getCurrentTheme w = Return T.
Proof.
  destruct (localStorage w) as [a|] eqn:Hs.
  - destruct (readThrows a) eqn:Hr.
    { left. by js_run Hs Hr. }
    destruct (writeThrows a) eqn:Hw.
    + left. unfold storeUntouched, after, onToggleClick.
      rewrite (bind_Return _ _ _ _ _ (getCurrentTheme_readable w a Hs Hr)).
      by js_run Hs Hw.
    + right. exists a. eexists. repeat split; [done|].
      unfold result. by rewrite (getCurrentTheme_readable w a Hs Hr).
  - left. by js_run Hs Hs.
Qed.

(** C7. The load-time scripts (both published versions), the storage
    listener and the icon initialisation never change the storage area and
    never call [setItem]. The click listener is the only writer: it either
    leaves the store untouched or overwrites exactly the [theme] key with
    ['dark'] or ['light'] in a single [setItem] call; no key that was
    persisted before a click is missing after it. *)
Theorem theme_key_written_only_by_toggle (w : World) (e : StorageEvent) :
  storeUntouched inlineScript w ∧
  storeUntouched Guide.inlineScript w ∧
  storeUntouched (onStorage e) w ∧
  storeUntouched initIcons w ∧
  (storeUntouched onToggleClick w ∨
   ∃ v, (v = "dark" ∨ v = "light") ∧
        stored (after onToggleClick w) = <["theme" := v]> (stored w) ∧
        setItemLog (after onToggleClick w) = setItemLog w ++ [("theme", v)]) ∧
  dom (stored w) ⊆ dom (stored (after onToggleClick w)).
Proof.
  split; [apply inlineScript_storeUntouched|].
  split; [apply Guide_inlineScript_storeUntouched|].
  split; [apply onStorage_storeUntouched|].
  split; [apply initIcons_storeUntouched|].
  destruct (onToggleClick_cases w) as [Hu | (a & T & Hs & Hw & HT)].
  - split; [by left|]. destruct Hu as [Hu _]. unfold stored. by rewrite Hu.
  - destruct (onToggleClick_ok w a T Hs Hw HT) as (p & E & _).
    unfold stored, after. rewrite E, Hs. simpl. split.
    + right. exists (opposite T). split; [apply opposite_cases|done].
    + rewrite dom_insert_L. set_solver.
Qed.

(** ** What resolving returns *)

(** C5, as stated, fails: with ["light"] persisted behind a read that
    throws (OS dark), [getCurrentTheme] ends in the exception of [getItem]
    instead of returning the stored value, and so does the inline
    [getThemePreference]. *)
Lemma stored_preference_behind_throwing_read :
  let w := mkWorld (Some {| items := {["theme" := "light"]};
                            readThrows := true; writeThrows := false |})
                   [] (freshPage true) in
  stored w !! "theme" = Some "light" ∧
  result getCurrentTheme w = Throw DOMException ∧
  result getCurrentTheme w ≠ Return (VStr "light") ∧
  result getThemePreference w = Throw DOMException.
Proof.
  simpl. split; [reflexivity|]. split; [reflexivity|].
  split; [discriminate | reflexivity].
Qed.

(** C5, amended. On a store that can be read, a persisted preference is
    returned verbatim by [getCurrentTheme] and by the inline
    [getThemePreference], whatever the OS signal says; with no value
    persisted both return ['dark'] exactly when the OS dark-scheme signal is
    active, and ['light'] otherwise. *)
Theorem stored_preference_wins (w : World) (a : StorageArea) :
  localStorage w = Some a → readThrows a = false →
  (∀ s, items a !! "theme" = Some s → s ≠ "" →
        result getCurrentTheme w = Return (VStr s) ∧
        result getThemePreference w = Return (VStr s)) ∧
  (items a !! "theme" = None →
        result getCurrentTheme w
          = Return (VStr (if prefersDark (page w) then "dark" else "light")) ∧
        result getThemePreference w
          = Return (VStr (if prefersDark (page w) then "dark" else "light"))).
Proof.
  intros Hs Hr. unfold result.
  rewrite (getCurrentTheme_readable w a Hs Hr),
          (getThemePreference_readable w a Hs Hr). simpl.
  split.
  - intros s -> Hne. simpl. by rewrite bool_decide_eq_false_2.
  - by intros ->.
Qed.

(** Scenario 2 (store = "light", OS dark) and scenario 1 (store empty, OS
    dark) of the spec, through [stored_preference_wins]. *)
Lemma stored_preference_wins_scenarios :
  (result getCurrentTheme
     (mkWorld (Some (working {["theme" := "light"]})) [] (freshPage true))
     = Return (VStr "light")) ∧
  (result getCurrentTheme (mkWorld (Some (working ∅)) [] (freshPage true))
     = Return (VStr "dark")).
Proof.
  split.
  - apply (stored_preference_wins
             (mkWorld (Some (working {["theme" := "light"]})) [] (freshPage true))
             (working {["theme" := "light"]}) eq_refl eq_refl);
      [reflexivity | discriminate].
  - apply (stored_preference_wins
             (mkWorld (Some (working ∅)) [] (freshPage true))
             (working ∅) eq_refl eq_refl).
    reflexivity.
Defined.

(** C1, as stated, fails: with the key holding a string that is not a theme
    name, [getThemePreference] hands that string back. *)
Lemma getThemePreference_returns_foreign_value :
  let w := mkWorld (Some (working {["theme" := "blue"]})) [] (freshPage false) in
  result getThemePreference w = Return (VStr "blue") ∧
  ¬ returnsTheme getThemePreference w.
Proof.
  assert (result getThemePreference
            (mkWorld (Some (working {["theme" := "blue"]})) [] (freshPage false))
          = Return (VStr "blue")) as E by reflexivity.
  simpl. split; [exact E|].
  unfold returnsTheme. rewrite E. intros [H|H]; discriminate H.
Qed.

(** C1, amended. With the store undefined or readable, the inline
    [getThemePreference] always returns a string, never [null]; when the
    key is absent or holds ['dark'] or ['light'] it returns exactly ['dark']
    or ['light'], and so does the version of astro-blog-guide.md when the
    store is undefined or the key is present. *)
Theorem getThemePreference_total (w : World) :
  (localStorage w = None ∨
   ∃ a, localStorage w = Some a ∧ readThrows a = false) →
  (∃ s, result getThemePreference w = Return (VStr s)) ∧
  ((∀ s, stored w !! "theme" = Some s → s = "dark" ∨ s = "light") →
   returnsTheme getThemePreference w ∧
   (localStorage w = None ∨ is_Some (stored w !! "theme") →
    returnsTheme Guide.getThemePreference w)).
Proof.
  unfold returnsTheme, result, stored.
  intros [Hs | (a & Hs & Hr)].
  - rewrite (getThemePreference_undefined w Hs),
            (Guide_getThemePreference_undefined w Hs). simpl.
    split; [by eexists|]. intros _.
    destruct (prefersDark (page w)); auto.
  - rewrite (getThemePreference_readable w a Hs Hr),
            (Guide_getThemePreference_defined w a Hs),
            (getItem_readable w a Hs Hr "theme"), Hs. simpl.
    destruct (items a !! "theme") as [s|] eqn:Hk; simpl.
    + split.
      * destruct (bool_decide (s = "")); simpl; [|by eexists].
        destruct (prefersDark (page w)); by eexists.
      * intros Hv. destruct (Hv s eq_refl) as [-> | ->]; simpl; auto.
    + split; [destruct (prefersDark (page w)); by eexists|].
      intros _. split; [destruct (prefersDark (page w)); auto|].
      intros [Hn | [s Hn]]; discriminate Hn.
Qed.

Lemma getThemePreference_total_witness :
  let w := mkWorld (Some (working {["theme" := "light"]})) [] (freshPage true) in
  returnsTheme getThemePreference w ∧ returnsTheme Guide.getThemePreference w.
Proof.
  pose (w := mkWorld (Some (working {["theme" := "light"]})) [] (freshPage true)).
  assert (∀ s, stored w !! "theme" = Some s → s = "dark" ∨ s = "light") as Hv.
  { intros s Hs. vm_compute in Hs. injection Hs as <-. by right. }
  destruct (getThemePreference_total w
              (or_intror (ex_intro _ (working {["theme" := "light"]})
                                   (conj eq_refl eq_refl))))
    as [_ Hth].
  destruct (Hth Hv) as [H1 H2].
  split; [exact H1|]. apply H2. right. by eexists.
Defined.

(** ** A store that fails *)

(** C3, as stated, fails: scenario 3 of the spec (the store throws on read,
    the OS signal is light) ends in the exception, not in ['light']. *)
Lemma getThemePreference_propagates_read_error :
  let w := mkWorld (Some {| items := ∅; readThrows := true; writeThrows := true |})
                   [] (freshPage false) in
  result getThemePreference w = Throw DOMException ∧
  result getThemePreference w ≠ Return (VStr "light").
Proof. simpl. split; [reflexivity | discriminate]. Qed.

(** C3, amended. With [localStorage] undefined, resolving completes on the
    OS-signal branch and the load-time script completes with the marker set
    from the OS signal; the storage listener completes in every store state.
    An exception of a store read or write is not caught anywhere: a throwing
    read propagates out of [getThemePreference], the load-time script and
    the click listener, and a throwing write out of the click listener. *)
Theorem store_failure_semantics (w : World) (e : StorageEvent) :
  (localStorage w = None →
     result getThemePreference w
       = Return (VStr (if prefersDark (page w) then "dark" else "light")) ∧
     result inlineScript w = Return () ∧
     marker (page (after inlineScript w)) = prefersDark (page w)) ∧
  result (onStorage e) w = Return () ∧
  (∀ a, localStorage w = Some a → readThrows a = true →
     result getThemePreference w = Throw DOMException ∧
     result inlineScript w = Throw DOMException ∧
     result onToggleClick w = Throw DOMException) ∧
  (∀ a, localStorage w = Some a → readThrows a = false → writeThrows a = true →
     result onToggleClick w = Throw DOMException).
Proof.
  split; [|split; [|split]].
  - intros Hs. split; [|split].
    + unfold result. by rewrite getThemePreference_undefined.
    + unfold result, inlineScript.
      by rewrite (bind_Return _ _ _ _ _ (getThemePreference_undefined w Hs)).
    + unfold after, inlineScript.
      rewrite (bind_Return _ _ _ _ _ (getThemePreference_undefined w Hs)).
      unfold applyTheme, root_setDarkClass, modify_page, marker. simpl.
      rewrite contains_setDarkClass. unfold strict_eq.
      by destruct (prefersDark (page w)).
  - js_simpl. by destruct (strict_eq (key e) _).
  - intros a Hs Hr. split; [|split].
    + unfold result. by rewrite (getThemePreference_denied w a).
    + unfold result, inlineScript.
      by rewrite (bind_Throw _ _ _ _ _ (getThemePreference_denied w a Hs Hr)).
    + by js_run Hs Hr.
  - intros a Hs Hr Hw. unfold result, onToggleClick.
    rewrite (bind_Return _ _ _ _ _ (getCurrentTheme_readable w a Hs Hr)).
    by js_run Hs Hw.
Qed.

Lemma store_failure_semantics_witness :
  let w := mkWorld None [] (freshPage false) in
  result getThemePreference w = Return (VStr "light") ∧
  result inlineScript w = Return () ∧
  marker (page (after inlineScript w)) = false.
Proof.
  exact (proj1 (store_failure_semantics (mkWorld None [] (freshPage false))
                  (mkStorageEvent (VStr "theme") VNull (VStr "dark")))
               eq_refl).
Defined.

(** ** Toggling, then resolving *)

Lemma opposite_nonempty T : opposite T ≠ "".
Proof. by destruct (opposite_cases T) as [-> | ->]. Qed.

Lemma toggleThenResolve_ok w a T :
  localStorage w = Some a → writeThrows a = false →
  result getCurrentTheme w = Return T →
  ∃ w1 a1,
    toggleThenResolve w = (Return (VStr (opposite T)), w1) ∧
    after onToggleClick w = w1 ∧
    localStorage w1 = Some a1 ∧ writeThrows a1 = false ∧
    result getCurrentTheme w1 = Return (VStr (opposite T)) ∧
    result getThemePreference w1 = Return (VStr (opposite T)).
Proof.
  intros Hs Hw HT.
  destruct (onToggleClick_ok w a T Hs Hw HT) as (p & E & _).
  set (a1 := {| items := <["theme" := opposite T]> (items a);
                readThrows := false; writeThrows := false |}) in E.
  set (w1 := {| localStorage := Some a1;
                setItemLog := setItemLog w ++ [("theme", opposite T)];
                page := p |}) in E.
  assert (getCurrentTheme w1 = (Return (VStr (opposite T)), w1)) as E1.
  { rewrite (getCurrentTheme_readable w1 a1 eq_refl eq_refl). simpl.
    rewrite lookup_insert_eq. simpl.
    by rewrite (bool_decide_eq_false_2 _ (opposite_nonempty T)). }
  assert (getThemePreference w1 = (Return (VStr (opposite T)), w1)) as E2.
  { rewrite (getThemePreference_readable w1 a1 eq_refl eq_refl). simpl.
    rewrite lookup_insert_eq. simpl.
    by rewrite (bool_decide_eq_false_2 _ (opposite_nonempty T)). }
  exists w1, a1. unfold toggleThenResolve, after, result.
  rewrite (bind_Return _ _ _ _ _ E), E1, E2, E. by repeat split.
Qed.

(** C2, as stated, fails: with a foreign string under the key, the resolved
    theme is that string, and two toggle-then-resolve rounds end at
    ['light'], not back at it. *)
Lemma toggle_twice_leaves_foreign_value :
  let w := mkWorld (Some (working {["theme" := "blue"]})) [] (freshPage false) in
  result getCurrentTheme w = Return (VStr "blue") ∧
  result (toggleThenResolve;; toggleThenResolve) w = Return (VStr "light") ∧
  result (toggleThenResolve;; toggleThenResolve) w ≠ result getCurrentTheme w.
Proof.
  assert (result (toggleThenResolve;; toggleThenResolve)
            (mkWorld (Some (working {["theme" := "blue"]})) [] (freshPage false))
          = Return (VStr "light")) as E by (vm_compute; reflexivity).
  simpl. rewrite E. split; [reflexivity|]. split; [reflexivity|]. discriminate.
Qed.

(** C2, amended. On a store that can be read and written, with any contents
    and any OS signal: if the resolved theme is [T], a click followed by a
    fresh resolve (by [getCurrentTheme], or by the inline
    [getThemePreference]) yields ['light'] when [T] is ['dark'] and ['dark']
    otherwise; and when [T] is ['dark'] or ['light'], two toggle-then-resolve
    rounds return to [T]. *)
Theorem toggle_then_resolve_opposite (w : World) (a : StorageArea) (T : value) :
  localStorage w = Some a → writeThrows a = false →
  result getCurrentTheme w = Return T →
  result toggleThenResolve w = Return (VStr (opposite T)) ∧
  result (onToggleClick;; getThemePreference) w = Return (VStr (opposite T)) ∧
  (T = VStr "dark" ∨ T = VStr "light" →
   result (toggleThenResolve;; toggleThenResolve) w = Return T).
Proof.
  intros Hs Hw HT.
  destruct (toggleThenResolve_ok w a T Hs Hw HT)
    as (w1 & a1 & E & Ea & Hs1 & Hw1 & HT1 & HP1).
  split; [unfold result; by rewrite E|]. split.
  - destruct (onToggleClick_ok w a T Hs Hw HT) as (p & Et & _).
    unfold after in Ea. rewrite Et in Ea. simpl in Ea.
    unfold result in *. rewrite (bind_Return _ _ _ _ _ Et). by rewrite Ea.
  - intros HTv.
    destruct (toggleThenResolve_ok w1 a1 _ Hs1 Hw1 HT1) as (w2 & _ & E2 & _).
    unfold result. rewrite (bind_Return _ _ _ _ _ E), E2. simpl.
    by destruct HTv as [-> | ->].
Qed.

Lemma toggle_then_resolve_opposite_witness :
  let w := mkWorld (Some (working ∅)) [] (freshPage false) in
  result toggleThenResolve w = Return (VStr "dark") ∧
  result (toggleThenResolve;; toggleThenResolve) w = Return (VStr "light").
Proof.
  assert (result getCurrentTheme (mkWorld (Some (working ∅)) [] (freshPage false))
          = Return (VStr "light")) as HT by reflexivity.
  destruct (toggle_then_resolve_opposite
              (mkWorld (Some (working ∅)) [] (freshPage false))
              (working ∅) (VStr "light") eq_refl eq_refl HT)
    as (H1 & _ & H2).
  split; [exact H1 | exact (H2 (or_intror eq_refl))].
Defined.

(** ** Across tabs *)

Lemma onToggleClick_Return_inv w :
  result onToggleClick w = Return () →
  ∃ a T, localStorage w = Some a ∧ writeThrows a = false ∧
         result getCurrentTheme w = Return T.
Proof.
  intros HR. destruct (localStorage w) as [a|] eqn:Hs.
  - destruct (readThrows a) eqn:Hr.
    { exfalso. revert HR. by js_run Hs Hr. }
    destruct (writeThrows a) eqn:Hw.
    + exfalso. revert HR. unfold result, onToggleClick.
      rewrite (bind_Return _ _ _ _ _ (getCurrentTheme_readable w a Hs Hr)).
      by js_run Hs Hw.
    + exists a. eexists. repeat split; [done|].
      unfold result. by rewrite (getCurrentTheme_readable w a Hs Hr).
  - exfalso. revert HR. by js_run Hs Hs.
Qed.

Lemma onStorage_theme e w :
  key e = VStr "theme" →
  result (onStorage e) w = Return () ∧
  marker (page (after (onStorage e) w)) = strict_eq (newValue e) (VStr "dark").
Proof.
  intros Hk. unfold onStorage. rewrite Hk, strict_eq_refl.
  unfold result, after, root_setDarkClass, modify_page, marker. simpl.
  by rewrite contains_setDarkClass.
Qed.

(** C4. Two views share one store. When the click listener of view A runs
    to completion, the last logged write is [("theme", v)] for the value [v]
    that A persisted; delivering any notification with key ['theme'] and new
    value [v] to the storage listener of view B completes, leaves view A as
    it was, and makes B's document marker equal to A's. *)
Theorem cross_tab_convergence (b b1 : Browser) :
  runInA onToggleClick b = (Return (), b1) →
  ∃ v, last (sharedLog b1) = Some ("theme", v) ∧
       ∀ e, key e = VStr "theme" → newValue e = VStr v →
            (runInB (onStorage e) b1).1 = Return () ∧
            viewA (runInB (onStorage e) b1).2 = viewA b1 ∧
            marker (viewB (runInB (onStorage e) b1).2) = marker (viewA b1).
Proof.
  unfold runInA.
  set (w := mkWorld (sharedStorage b) (sharedLog b) (viewA b)).
  intros Hrun.
  assert (result onToggleClick w = Return ()) as HR.
  { unfold result. by destruct (onToggleClick w) as [r w'']; injection Hrun as -> _. }
  destruct (onToggleClick_Return_inv w HR) as (a & T & Hs & Hw & HT).
  destruct (onToggleClick_ok w a T Hs Hw HT) as (p & E & Hm & _).
  rewrite E in Hrun. injection Hrun as <-. simpl.
  exists (opposite T). split; [apply last_snoc|].
  intros e Hk Hv. unfold runInB. simpl.
  match goal with |- context [onStorage e ?w'] => set (wB := w') end.
  destruct (onStorage_theme e wB Hk) as [HRb HMb].
  unfold result, after in HRb, HMb.
  destruct (onStorage e wB) as [rB wB'] eqn:EB. simpl in *.
  by rewrite HRb, HMb, Hm, Hv.
Qed.

Lemma cross_tab_convergence_witness :
  let b := mkBrowser (Some (working ∅)) [] (freshPage false) (freshPage false) in
  let b1 := (runInA onToggleClick b).2 in
  let e := mkStorageEvent (VStr "theme") VNull (VStr "dark") in
  last (sharedLog b1) = Some ("theme", "dark") ∧
  marker (viewB (runInB (onStorage e) b1).2) = marker (viewA b1) ∧
  marker (viewA b1) = true.
Proof.
  intros b b1 e.
  assert (runInA onToggleClick b = (Return (), b1)) as Hrun by reflexivity.
  destruct (cross_tab_convergence b b1 Hrun) as (v & Hlast & Hconv).
  assert (v = "dark") as ->.
  { vm_compute in Hlast. by injection Hlast as <-. }
  split; [exact Hlast|].
  split; [exact (proj2 (proj2 (Hconv e eq_refl eq_refl))) | reflexivity].
Defined.

(** C6, at its failing input: the notification says the key was removed
    (new value [null]) while the OS signal is dark. The derivation of the
    data model gives ['dark'] there, and so does the load-time script on the
    same store state; the listener removes the marker. *)
Lemma onStorage_ignores_os_signal :
  let e := mkStorageEvent (VStr "theme") (VStr "dark") VNull in
  let w := mkWorld (Some (working ∅)) []
             (mkPage true ["dark"] ["hidden"] []) in
  spec_EffectiveTheme (newValue e) (prefersDark (page w)) = VStr "dark" ∧
  marker (page (after inlineScript w)) = true ∧
  marker (page (after (onStorage e) w)) = false.
Proof. simpl. repeat split; reflexivity. Qed.

(** With a string as the notified value, the listener does set the marker
    as the derivation says. *)
Lemma onStorage_follows_notified_string e w s :
  key e = VStr "theme" → newValue e = VStr s →
  marker (page (after (onStorage e) w))
    = strict_eq (spec_EffectiveTheme (newValue e) (prefersDark (page w)))
                (VStr "dark").
Proof.
  intros Hk Hv. rewrite (proj2 (onStorage_theme e w Hk)). by rewrite Hv.
Qed.

(** ** The two published head scripts *)

(** C10, at its failing input: a first visit (store available, no [theme]
    key) with the OS signal dark. The script of dark-mode-implementation.md
    resolves to ['dark'] and sets the marker; the one of astro-blog-guide.md
    returns [null] and leaves the marker off. *)
Lemma head_scripts_differ_on_first_visit :
  let w := mkWorld (Some (working ∅)) [] (freshPage true) in
  result getThemePreference w = Return (VStr "dark") ∧
  result Guide.getThemePreference w = Return VNull ∧
  marker (page (after inlineScript w)) = true ∧
  marker (page (after Guide.inlineScript w)) = false.
Proof. simpl. repeat split; reflexivity. Qed.

(** Where the two versions do agree: without a store, when the read throws,
    and when the key holds a non-empty string. *)
Lemma head_scripts_agree_elsewhere w :
  (localStorage w = None ∨
   (∃ a, localStorage w = Some a ∧ readThrows a = true) ∨
   (∃ s, stored w !! "theme" = Some s ∧ s ≠ "")) →
  getThemePreference w = Guide.getThemePreference w.
Proof.
  intros [Hs | [(a & Hs & Hr) | (s & Hk & Hne)]].
  - by rewrite getThemePreference_undefined, Guide_getThemePreference_undefined.
  - rewrite (getThemePreference_denied w a Hs Hr),
            (Guide_getThemePreference_defined w a Hs).
    by rewrite (getItem_denied "theme" w a Hs Hr).
  - unfold stored in Hk. destruct (localStorage w) as [a|] eqn:Hs; [|done].
    simpl in Hk. rewrite (Guide_getThemePreference_defined w a Hs).
    destruct (readThrows a) eqn:Hr.
    + rewrite (getThemePreference_denied w a Hs Hr).
      by rewrite (getItem_denied "theme" w a Hs Hr).
    + rewrite (getThemePreference_readable w a Hs Hr),
              (getItem_readable w a Hs Hr "theme"), Hk. simpl.
      by rewrite (bool_decide_eq_false_2 _ Hne).
Qed.

(** * Further properties of the theme scripts *)

(** ** Class lists, continued *)

Lemma remove_add_same tok cl :
  classList.remove tok (classList.add tok cl) = classList.remove tok cl.
Proof.
  unfold classList.add, classList.remove.
  destruct (classList.contains tok cl); [done|].
  rewrite filter_app, filter_cons. case_decide as Hc; [done|].
  by rewrite filter_nil, app_nil_r.
Qed.

Lemma remove_setDarkClass b cl :
  classList.remove "dark" (setDarkClass b cl) = classList.remove "dark" cl.
Proof. destruct b; simpl; [apply remove_add_same | apply remove_remove]. Qed.

Lemma updateIcons_shown (theme : value) (w : World) :
  let w' := after (updateIcons theme) w in
  result (updateIcons theme) w = Return () ∧
  moonShown (page w') = strict_eq theme (VStr "dark") ∧
  sunShown (page w') = negb (strict_eq theme (VStr "dark")) ∧
  rootClassList (page w') = rootClassList (page w) ∧
  storeUntouched (updateIcons theme) w.
Proof.
  unfold moonShown, sunShown. js_simpl.
  destruct (strict_eq theme (VStr "dark")); simpl;
    rewrite contains_add, contains_remove; done.
Qed.

(** [updateIcons] (dark-mode-implementation.md, lines 125-133) always ends
    with exactly one icon visible: the moon icon when the theme is exactly
    ['dark'], the sun icon for every other value ([null] and foreign strings
    included), whatever classes the icons had; it touches neither the root
    element nor the store. *)
Theorem updateIcons_one_icon_visible (theme : value) (w : World) :
  let w' := after (updateIcons theme) w in
  result (updateIcons theme) w = Return () ∧
  moonShown (page w') = strict_eq theme (VStr "dark") ∧
  sunShown (page w') = negb (strict_eq theme (VStr "dark")) ∧
  rootClassList (page w') = rootClassList (page w) ∧
  storeUntouched (updateIcons theme) w.
Proof. exact (updateIcons_shown theme w). Qed.

Lemma applyTheme_effect (theme : value) (w : World) :
  let w' := after (applyTheme theme) w in
  classList.remove "dark" (rootClassList (page w'))
    = classList.remove "dark" (rootClassList (page w)) ∧
  marker (page w') = strict_eq theme (VStr "dark").
Proof.
  unfold marker. js_simpl.
  by rewrite remove_setDarkClass, contains_setDarkClass.
Qed.

(** The class update of the head script (lines 69-70) only ever adds or
    removes the [dark] token: the other classes of the root element are kept,
    in their order, and afterwards [dark] is present exactly when the theme
    is ['dark']. *)
Theorem applyTheme_keeps_other_classes (theme : value) (w : World) :
  let w' := after (applyTheme theme) w in
  classList.remove "dark" (rootClassList (page w'))
    = classList.remove "dark" (rootClassList (page w)) ∧
  marker (page w') = strict_eq theme (VStr "dark").
Proof. exact (applyTheme_effect theme w). Qed.

(** ** The head script *)

Lemma inlineScript_resolved w T :
  getThemePreference w = (Return T, w) →
  inlineScript w = applyTheme T w.
Proof. intros E. unfold inlineScript. by rewrite (bind_Return _ _ _ _ _ E). Qed.

Lemma inlineScript_readable (w : World) (a : StorageArea) :
  localStorage w = Some a → readThrows a = false →
  result inlineScript w = Return () ∧
  (∀ s, items a !! "theme" = Some s → s ≠ "" →
        marker (page (after inlineScript w)) = bool_decide (s = "dark")) ∧
  (items a !! "theme" = None ∨ items a !! "theme" = Some "" →
        marker (page (after inlineScript w)) = prefersDark (page w)).
Proof.
  intros Hs Hr.
  pose proof (getThemePreference_readable w a Hs Hr) as E. simpl in E.
  pose proof (inlineScript_resolved w _ E) as EI.
  pose proof (proj2 (applyTheme_effect
                       (if truthy (from_option VStr VNull (items a !! "theme"))
                        then from_option VStr VNull (items a !! "theme")
                        else VStr (if prefersDark (page w) then "dark" else "light"))
                       w)) as HM.
  unfold result, after in *. rewrite EI.
  split; [done|]. split.
  - intros s Hk Hne. rewrite HM, Hk. simpl.
    rewrite (bool_decide_eq_false_2 _ Hne). simpl.
    unfold strict_eq. apply bool_decide_ext. split; congruence.
  - intros Hk. rewrite HM.
    destruct Hk as [-> | ->]; simpl; by destruct (prefersDark (page w)).
Qed.

(** The head script (lines 56-71) compares the stored string with ['dark']
    exactly. On a readable store, a non-empty stored value [s] decides alone:
    the marker is set iff [s = "dark"], so ["Dark"] or ["blue"] give a light
    page even under a dark OS signal; an absent or empty value leaves the
    decision to the OS signal. The marker found on the element is
    overwritten either way. *)
Theorem inlineScript_exact_match (w : World) (a : StorageArea) :
  localStorage w = Some a → readThrows a = false →
  result inlineScript w = Return () ∧
  (∀ s, items a !! "theme" = Some s → s ≠ "" →
        marker (page (after inlineScript w)) = bool_decide (s = "dark")) ∧
  (items a !! "theme" = None ∨ items a !! "theme" = Some "" →
        marker (page (after inlineScript w)) = prefersDark (page w)).
Proof. exact (inlineScript_readable w a). Qed.

Lemma inlineScript_exact_match_witness :
  let w := mkWorld (Some (working {["theme" := "Dark"]})) []
                   (mkPage true ["dark"] [] []) in
  marker (page (after inlineScript w)) = false.
Proof.
  exact (proj1 (proj2 (inlineScript_exact_match
                 (mkWorld (Some (working {["theme" := "Dark"]})) []
                          (mkPage true ["dark"] [] []))
                 (working {["theme" := "Dark"]}) eq_refl eq_refl))
               "Dark" eq_refl ltac:(discriminate)).
Defined.

Lemma run_eta {A} (m : JS A) w : m w = (result m w, after m w).
Proof. unfold result, after. by destruct (m w). Qed.

(** Resolving looks at the store and at the OS signal, nothing else. *)
Lemma getThemePreference_frame w w' :
  localStorage w' = localStorage w →
  prefersDark (page w') = prefersDark (page w) →
  result getThemePreference w' = result getThemePreference w.
Proof.
  intros Hs Hd. unfold result.
  destruct (localStorage w) as [a|] eqn:Ha.
  - destruct (readThrows a) eqn:Hr.
    + by rewrite (getThemePreference_denied w a), (getThemePreference_denied w' a).
    + rewrite (getThemePreference_readable w a), (getThemePreference_readable w' a);
        try done. simpl. by rewrite Hd.
  - rewrite (getThemePreference_undefined w), (getThemePreference_undefined w');
      try done. simpl. by rewrite Hd.
Qed.

Lemma getCurrentTheme_frame w w' :
  localStorage w' = localStorage w →
  prefersDark (page w') = prefersDark (page w) →
  result getCurrentTheme w' = result getCurrentTheme w.
Proof.
  intros Hs Hd. unfold result.
  destruct (localStorage w) as [a|] eqn:Ha.
  - destruct (readThrows a) eqn:Hr.
    + unfold getCurrentTheme.
      by rewrite (bind_Throw _ _ _ _ _ (getItem_denied "theme" w a Ha Hr)),
                 (bind_Throw _ _ _ _ _ (getItem_denied "theme" w' a Hs Hr)).
    + rewrite (getCurrentTheme_readable w a), (getCurrentTheme_readable w' a);
        try done. simpl. by rewrite Hd.
  - unfold getCurrentTheme, bind, getItem. by rewrite Hs, Ha.
Qed.

(** ** The click listener, in full *)

(** The world a completed click leaves, field by field. *)
Lemma onToggleClick_world w a T :
  localStorage w = Some a → writeThrows a = false →
  result getCurrentTheme w = Return T →
  let w' := after onToggleClick w in
  result onToggleClick w = Return () ∧
  localStorage w' = Some {| items := <["theme" := opposite T]> (items a);
                            readThrows := false; writeThrows := false |} ∧
  setItemLog w' = setItemLog w ++ [("theme", opposite T)] ∧
  prefersDark (page w') = prefersDark (page w) ∧
  marker (page w') = bool_decide (opposite T = "dark") ∧
  moonShown (page w') = bool_decide (opposite T = "dark") ∧
  sunShown (page w') = negb (bool_decide (opposite T = "dark")).
Proof.
  intros Hs Hw HT.
  assert (readThrows a = false) as Hr.
  { destruct (readThrows a) eqn:Hr; [|done].
    unfold result, getCurrentTheme in HT.
    by rewrite (bind_Throw _ _ _ _ _ (getItem_denied "theme" w a Hs Hr)) in HT. }
  pose proof (getCurrentTheme_readable w a Hs Hr) as E. simpl in E.
  unfold result in HT. rewrite E in HT. simpl in HT. injection HT as HT.
  rewrite HT in E. clear HT.
  assert (strict_eq (VStr (opposite T)) (VStr "dark")
          = bool_decide (opposite T = "dark")) as Ed.
  { unfold strict_eq. apply bool_decide_ext. split; congruence. }
  unfold result, after, onToggleClick.
  rewrite (bind_Return _ _ _ _ _ E).
  unfold marker, moonShown, sunShown.
  js_run Hs Hw. rewrite Hr, Ed.
  destruct (bool_decide (opposite T = "dark")); simpl;
    rewrite ?contains_add, ?contains_remove; done.
Qed.

(** A completed click leaves the page and the store telling the same story:
    the persisted value is the new theme, the marker is on exactly when that
    value is ["dark"], and exactly one icon is visible (the moon icon for
    ["dark"]), whatever the marker and the icons were before. *)
Theorem onToggleClick_page_matches_store (w : World) :
  result onToggleClick w = Return () →
  ∃ v, (v = "dark" ∨ v = "light") ∧
       stored (after onToggleClick w) !! "theme" = Some v ∧
       marker (page (after onToggleClick w)) = bool_decide (v = "dark") ∧
       moonShown (page (after onToggleClick w)) = bool_decide (v = "dark") ∧
       sunShown (page (after onToggleClick w)) = negb (bool_decide (v = "dark")).
Proof.
  intros HR.
  destruct (onToggleClick_Return_inv w HR) as (a & T & Hs & Hw & HT).
  destruct (onToggleClick_world w a T Hs Hw HT) as (_ & Hl & _ & _ & Hm & Hmo & Hsu).
  exists (opposite T). split; [apply opposite_cases|].
  unfold stored. rewrite Hl. simpl. by rewrite lookup_insert_eq.
Qed.

Lemma onToggleClick_page_matches_store_witness :
  let w := mkWorld (Some (working {["theme" := "dark"]})) []
                   (mkPage false [] [] []) in
  ∃ v, (v = "dark" ∨ v = "light") ∧
       stored (after onToggleClick w) !! "theme" = Some v ∧
       marker (page (after onToggleClick w)) = bool_decide (v = "dark") ∧
       moonShown (page (after onToggleClick w)) = bool_decide (v = "dark") ∧
       sunShown (page (after onToggleClick w)) = negb (bool_decide (v = "dark")).
Proof.
  exact (onToggleClick_page_matches_store
           (mkWorld (Some (working {["theme" := "dark"]})) []
                    (mkPage false [] [] []))
           eq_refl).
Defined.

(** The persistence test of the post (lines 219-231), for every start: after
    a completed click, a page load over the store it left (any fresh
    document, any OS signal) completes and shows the theme the click showed. *)
Theorem reload_keeps_toggled_theme (w : World) (p : Page) :
  result onToggleClick w = Return () →
  result inlineScript (reload p (after onToggleClick w)) = Return () ∧
  marker (page (after inlineScript (reload p (after onToggleClick w))))
    = marker (page (after onToggleClick w)).
Proof.
  intros HR.
  destruct (onToggleClick_Return_inv w HR) as (a & T & Hs & Hw & HT).
  destruct (onToggleClick_world w a T Hs Hw HT) as (_ & Hl & _ & _ & Hm & _).
  set (w1 := after onToggleClick w) in *.
  destruct (inlineScript_readable (reload p w1) _ Hl eq_refl) as (Hres & Hmk & _).
  split; [done|]. rewrite Hm.
  apply (Hmk (opposite T)); [apply lookup_insert_eq | apply opposite_nonempty].
Qed.

Lemma reload_keeps_toggled_theme_witness :
  let w := mkWorld (Some (working ∅)) [] (freshPage false) in
  marker (page (after inlineScript (reload (freshPage false) (after onToggleClick w))))
    = true.
Proof.
  intros w.
  destruct (reload_keeps_toggled_theme w (freshPage false) eq_refl) as [_ H].
  rewrite H. reflexivity.
Defined.

(** When the read went through but [setItem] throws, the click has already
    switched the root class (line 144 runs before line 147): the exception
    leaves the marker on the new theme while the store, the log and the
    icons are as before, so a fresh resolve still returns the old theme. *)
Theorem onToggleClick_write_failure (w : World) (a : StorageArea) (T : value) :
  localStorage w = Some a → readThrows a = false → writeThrows a = true →
  result getCurrentTheme w = Return T →
  let w' := after onToggleClick w in
  result onToggleClick w = Throw DOMException ∧
  marker (page w') = bool_decide (opposite T = "dark") ∧
  storeUntouched onToggleClick w ∧
  sunIconClassList (page w') = sunIconClassList (page w) ∧
  moonIconClassList (page w') = moonIconClassList (page w) ∧
  result getCurrentTheme w' = Return T.
Proof.
  intros Hs Hr Hw HT.
  pose proof (getCurrentTheme_readable w a Hs Hr) as E. simpl in E.
  unfold result in HT. rewrite E in HT. simpl in HT. injection HT as HT.
  rewrite HT in E.
  assert (strict_eq (VStr (opposite T)) (VStr "dark")
          = bool_decide (opposite T = "dark")) as Ed.
  { unfold strict_eq. apply bool_decide_ext. split; congruence. }
  assert (onToggleClick w =
          (Throw DOMException,
           {| localStorage := localStorage w; setItemLog := setItemLog w;
              page := {| prefersDark := prefersDark (page w);
                         rootClassList :=
                           setDarkClass (bool_decide (opposite T = "dark"))
                                        (rootClassList (page w));
                         sunIconClassList := sunIconClassList (page w);
                         moonIconClassList := moonIconClassList (page w) |} |}))
    as EC.
  { unfold onToggleClick. rewrite (bind_Return _ _ _ _ _ E).
    js_run Hs Hw. by rewrite Ed. }
  simpl. unfold storeUntouched, result, after. rewrite EC. simpl.
  split; [done|]. split; [unfold marker; simpl; apply contains_setDarkClass|].
  do 3 (split; [done|]).
  match goal with |- (getCurrentTheme ?w2).1 = _ =>
    change ((getCurrentTheme w2).1) with (result getCurrentTheme w2);
    rewrite (getCurrentTheme_frame w w2 eq_refl eq_refl) end.
  unfold result. by rewrite E.
Qed.

Lemma onToggleClick_write_failure_witness :
  let w := mkWorld (Some {| items := ∅; readThrows := false; writeThrows := true |})
                   [] (freshPage false) in
  marker (page (after onToggleClick w)) = true ∧
  result getCurrentTheme (after onToggleClick w) = Return (VStr "light").
Proof.
  intros w.
  destruct (onToggleClick_write_failure w
              {| items := ∅; readThrows := false; writeThrows := true |}
              (VStr "light") eq_refl eq_refl eq_refl eq_refl)
    as (_ & Hm & _ & _ & _ & HT).
  split; [exact Hm | exact HT].
Defined.



(** ** The storage listener, in full *)

Lemma onStorage_effect (e : StorageEvent) (w : World) :
  let w' := after (onStorage e) w in
  result (onStorage e) w = Return () ∧
  storeUntouched (onStorage e) w ∧
  classList.remove "dark" (rootClassList (page w'))
    = classList.remove "dark" (rootClassList (page w)) ∧
  sunIconClassList (page w') = sunIconClassList (page w) ∧
  moonIconClassList (page w') = moonIconClassList (page w) ∧
  (key e ≠ VStr "theme" → w' = w).
Proof.
  unfold onStorage. destruct (strict_eq (key e) (VStr "theme")) eqn:Hk.
  - apply strict_eq_true in Hk. js_simpl. rewrite remove_setDarkClass.
    by repeat split.
  - js_simpl. by repeat split.
Qed.

(** The storage listener (lines 92-97) completes on every event and only
    ever changes the presence of [dark] on the root element: the other root
    classes, both icons, the store and the log are as before; an event for
    another key, or with a [null] key as [clear()] sends it, changes
    nothing at all. *)
Theorem onStorage_frame (e : StorageEvent) (w : World) :
  let w' := after (onStorage e) w in
  result (onStorage e) w = Return () ∧
  storeUntouched (onStorage e) w ∧
  classList.remove "dark" (rootClassList (page w'))
    = classList.remove "dark" (rootClassList (page w)) ∧
  sunIconClassList (page w') = sunIconClassList (page w) ∧
  moonIconClassList (page w') = moonIconClassList (page w) ∧
  (key e ≠ VStr "theme" → w' = w).
Proof. exact (onStorage_effect e w). Qed.

Lemma onStorage_frame_witness :
  let w := mkWorld (Some (working ∅)) [] (mkPage false ["dark"] [] []) in
  after (onStorage (mkStorageEvent VNull VNull VNull)) w = w.
Proof.
  intros w.
  destruct (onStorage_frame (mkStorageEvent VNull VNull VNull) w)
    as (_ & _ & _ & _ & _ & H).
  apply H. discriminate.
Defined.

(** Across tabs the icons go stale. After a completed click in view A and
    the delivery of its notification to view B, the icons of B are the ones
    it had; so if B's moon icon showed the old theme, it now contradicts B's
    marker. *)
Theorem cross_tab_icons_stale (b b1 : Browser) (e : StorageEvent) (v : string) :
  runInA onToggleClick b = (Return (), b1) →
  last (sharedLog b1) = Some ("theme", v) →
  key e = VStr "theme" → newValue e = VStr v →
  let b2 := (runInB (onStorage e) b1).2 in
  sunIconClassList (viewB b2) = sunIconClassList (viewB b) ∧
  moonIconClassList (viewB b2) = moonIconClassList (viewB b) ∧
  marker (viewB b2) = bool_decide (v = "dark") ∧
  (moonShown (viewB b) = negb (bool_decide (v = "dark")) →
   moonShown (viewB b2) ≠ marker (viewB b2)).
Proof.
  intros Hrun Hlast Hk Hv.
  assert (viewB b1 = viewB b) as HB.
  { unfold runInA in Hrun. destruct (onToggleClick _) as [r w']. by injection Hrun as _ <-. }
  unfold runInB. simpl.
  match goal with |- context [onStorage e ?w'] => set (wB := w') end.
  destruct (onStorage_effect e wB) as (_ & _ & _ & Hsun & Hmoon & _).
  destruct (onStorage_theme e wB Hk) as [_ HMb].
  unfold after in *. destruct (onStorage e wB) as [rB wB'] eqn:EB. simpl in *.
  rewrite Hsun, Hmoon, HB.
  assert (marker (page wB') = bool_decide (v = "dark")) as HM.
  { rewrite HMb, Hv. unfold strict_eq. apply bool_decide_ext. split; congruence. }
  do 2 (split; [done|]). split; [done|].
  intros Hold. unfold moonShown in *. rewrite Hmoon, HB, Hold, HM.
  by destruct (bool_decide (v = "dark")).
Qed.

Lemma cross_tab_icons_stale_witness :
  let b := mkBrowser (Some (working ∅)) []
             (mkPage false [] [] ["hidden"]) (mkPage false [] [] ["hidden"]) in
  let b1 := (runInA onToggleClick b).2 in
  let e := mkStorageEvent (VStr "theme") VNull (VStr "dark") in
  let b2 := (runInB (onStorage e) b1).2 in
  marker (viewB b2) = true ∧ moonShown (viewB b2) ≠ marker (viewB b2).
Proof.
  intros b b1 e b2.
  assert (runInA onToggleClick b = (Return (), b1)) as Hrun by reflexivity.
  assert (last (sharedLog b1) = Some ("theme", "dark")) as Hlast by reflexivity.
  destruct (cross_tab_icons_stale b b1 e "dark" Hrun Hlast eq_refl eq_refl)
    as (_ & _ & Hm & Hst).
  split; [exact Hm | exact (Hst eq_refl)].
Defined.

(** ** The two resolvers of the post *)

(** [getCurrentTheme] (lines 120-123) and the inline [getThemePreference]
    (lines 57-66) run the same way whenever [localStorage] is defined, also
    when its read throws. Without [localStorage] they part: the head script
    falls back on the OS signal and completes, while [getCurrentTheme], and
    with it the icon initialisation of line 136, throws and leaves both
    icons as the markup has them. *)
Theorem resolvers_agree_on_defined_store (w : World) :
  (is_Some (localStorage w) → getCurrentTheme w = getThemePreference w) ∧
  (localStorage w = None →
     result getThemePreference w
       = Return (VStr (if prefersDark (page w) then "dark" else "light")) ∧
     result inlineScript w = Return () ∧
     getCurrentTheme w = (Throw ReferenceError, w) ∧
     initIcons w = (Throw ReferenceError, w)).
Proof.
  split.
  - intros [a Hs]. destruct (readThrows a) eqn:Hr.
    + rewrite (getThemePreference_denied w a Hs Hr). unfold getCurrentTheme.
      by rewrite (bind_Throw _ _ _ _ _ (getItem_denied "theme" w a Hs Hr)).
    + by rewrite (getThemePreference_readable w a Hs Hr),
                 (getCurrentTheme_readable w a Hs Hr).
  - intros Hs.
    pose proof (getThemePreference_undefined w Hs) as E.
    unfold result. rewrite E, (inlineScript_resolved w _ E).
    repeat split; by js_run Hs Hs.
Qed.

Lemma resolvers_agree_on_defined_store_witness :
  let w := mkWorld None [] (freshPage true) in
  result getThemePreference w = Return (VStr "dark") ∧
  initIcons w = (Throw ReferenceError, w).
Proof.
  intros w.
  destruct (proj2 (resolvers_agree_on_defined_store w) eq_refl)
    as (H1 & _ & _ & H2).
  split; [exact H1 | exact H2].
Defined.

(** A page load on a readable store, the head script and then the icon
    initialisation of the component, ends with marker and icons in step:
    the moon icon is visible exactly when the marker is on, the sun icon
    exactly when it is off. *)
Theorem page_load_icons_match_marker (w : World) (a : StorageArea) :
  localStorage w = Some a → readThrows a = false →
  let w' := after initIcons (after inlineScript w) in
  result inlineScript w = Return () ∧
  result initIcons (after inlineScript w) = Return () ∧
  moonShown (page w') = marker (page w') ∧
  sunShown (page w') = negb (marker (page w')).
Proof.
  intros Hs Hr.
  pose proof (getThemePreference_readable w a Hs Hr) as E. simpl in E.
  set (T := if truthy (from_option VStr VNull (items a !! "theme"))
            then from_option VStr VNull (items a !! "theme")
            else VStr (if prefersDark (page w) then "dark" else "light")) in E.
  pose proof (inlineScript_resolved w T E) as EI.
  destruct (applyTheme_effect T w) as [_ HM].
  set (w1 := after inlineScript w).
  assert (w1 = after (applyTheme T) w) as Hw1.
  { subst w1. unfold after. by rewrite EI. }
  assert (getCurrentTheme w1 = (Return T, w1)) as EC.
  { rewrite (run_eta getCurrentTheme w1), getCurrentTheme_pure.
    rewrite (getCurrentTheme_frame w w1); [|by rewrite Hw1|by rewrite Hw1].
    unfold result. by rewrite (getCurrentTheme_readable w a Hs Hr). }
  destruct (updateIcons_shown T w1) as (Hres & Hmo & Hsu & Hroot & _).
  simpl. unfold result, after in *. unfold initIcons.
  rewrite (bind_Return _ _ _ _ _ EC), EI. simpl.
  split; [done|]. split; [done|].
  unfold marker in *. rewrite Hmo, Hsu, Hroot, Hw1, HM. done.
Qed.

Lemma page_load_icons_match_marker_witness :
  let w := mkWorld (Some (working {["theme" := "dark"]})) [] (freshPage false) in
  let w' := after initIcons (after inlineScript w) in
  moonShown (page w') = marker (page w') ∧ marker (page w') = true.
Proof.
  intros w w'.
  destruct (page_load_icons_match_marker w (working {["theme" := "dark"]})
              eq_refl eq_refl) as (_ & _ & H & _).
  split; [exact H | reflexivity].
Defined.

(** ** What the store can hold, and repeated clicks *)

Lemma storeUntouched_stored {A} (m : JS A) w :
  storeUntouched m w → stored (after m w) = stored w.
Proof. intros [H _]. unfold stored. by rewrite H. Qed.

(** A completed click puts a theme name under [theme], whatever was there;
    and once a theme name is there, every script keeps one there (a click
    that throws included), so on a readable store both resolvers return
    ['dark'] or ['light'] from then on. *)
Theorem validTheme_invariant (w : World) (e : StorageEvent) :
  (result onToggleClick w = Return () → validTheme (after onToggleClick w)) ∧
  (validTheme w →
     validTheme (after onToggleClick w) ∧
     validTheme (after inlineScript w) ∧
     validTheme (after (onStorage e) w) ∧
     validTheme (after initIcons w) ∧
     (∀ a, localStorage w = Some a → readThrows a = false →
           returnsTheme getCurrentTheme w ∧ returnsTheme getThemePreference w)).
Proof.
  assert (∀ a T, localStorage w = Some a → writeThrows a = false →
                 result getCurrentTheme w = Return T →
                 validTheme (after onToggleClick w)) as Hok.
  { intros a T Hs Hw HT.
    destruct (onToggleClick_world w a T Hs Hw HT) as (_ & Hl & _).
    unfold validTheme, stored. rewrite Hl. simpl. rewrite lookup_insert_eq.
    destruct (opposite_cases T) as [-> | ->]; auto. }
  split.
  - intros HR. destruct (onToggleClick_Return_inv w HR) as (a & T & Hs & Hw & HT).
    by apply (Hok a T).
  - intros Hv. unfold validTheme in *.
    rewrite (storeUntouched_stored _ _ (inlineScript_storeUntouched w)),
            (storeUntouched_stored _ _ (onStorage_storeUntouched e w)),
            (storeUntouched_stored _ _ (initIcons_storeUntouched w)).
    split.
    { destruct (onToggleClick_cases w) as [Hu | (a & T & Hs & Hw & HT)].
      - by rewrite (storeUntouched_stored _ _ Hu).
      - by apply (Hok a T). }
    do 3 (split; [done|]).
    intros a Hs Hr. unfold returnsTheme, result, stored in *.
    rewrite (getCurrentTheme_readable w a Hs Hr),
            (getThemePreference_readable w a Hs Hr).
    rewrite Hs in Hv. simpl in *. destruct Hv as [-> | ->]; simpl; auto.
Qed.

Lemma validTheme_invariant_witness :
  let w := mkWorld (Some (working {["theme" := "blue"]})) [] (freshPage false) in
  validTheme (after onToggleClick w) ∧
  validTheme (after onToggleClick (after onToggleClick w)).
Proof.
  intros w.
  pose (e := mkStorageEvent VNull VNull VNull).
  assert (validTheme (after onToggleClick w)) as H1.
  { exact (proj1 (validTheme_invariant w e) eq_refl). }
  split; [exact H1|].
  exact (proj1 (proj2 (validTheme_invariant (after onToggleClick w) e) H1)).
Defined.

Lemma opposite_opposite T :
  T = VStr "dark" ∨ T = VStr "light" → VStr (opposite (VStr (opposite T))) = T.
Proof. by intros [-> | ->]. Qed.

(** Clicks alternate. On a store that accepts the read and the write, from
    a resolved theme [T] that is ['dark'] or ['light']: after [n] clicks the
    store resolves to [T] for even [n] and to the other theme for odd [n],
    every click has made exactly one [setItem] call, and after at least one
    click the marker shows the theme the store resolves to. *)
Theorem clicks_alternate (n : nat) (w : World) (a : StorageArea) (T : value) :
  localStorage w = Some a → writeThrows a = false →
  result getCurrentTheme w = Return T →
  T = VStr "dark" ∨ T = VStr "light" →
  let Tn := if Nat.even n then T else VStr (opposite T) in
  result getCurrentTheme (afterClicks n w) = Return Tn ∧
  length (setItemLog (afterClicks n w)) = length (setItemLog w) + n ∧
  (0 < n → marker (page (afterClicks n w)) = strict_eq Tn (VStr "dark")).
Proof.
  intros Hs Hw HT HTv. simpl.
  assert (∃ an, localStorage (afterClicks n w) = Some an ∧ writeThrows an = false ∧
                result getCurrentTheme (afterClicks n w)
                  = Return (if Nat.even n then T else VStr (opposite T)) ∧
                length (setItemLog (afterClicks n w)) = length (setItemLog w) + n ∧
                (0 < n → marker (page (afterClicks n w))
                         = strict_eq (if Nat.even n then T else VStr (opposite T))
                                     (VStr "dark"))) as (an & _ & _ & H).
  { induction n as [|n IH].
    - exists a. simpl. repeat split; [done..|lia|lia].
    - destruct IH as (an & Hsn & Hwn & HTn & Hlen & _).
      change (afterClicks (S n) w) with (after onToggleClick (afterClicks n w)).
      set (wn := afterClicks n w) in *.
      destruct (onToggleClick_world wn an _ Hsn Hwn HTn)
        as (_ & Hl & Hlog & _ & Hm & _).
      destruct (toggleThenResolve_ok wn an _ Hsn Hwn HTn)
        as (w1 & a1 & _ & Ea & _ & _ & HT1 & _).
      rewrite <- Ea in HT1.
      assert (VStr (opposite (if Nat.even n then T else VStr (opposite T)))
              = (if Nat.even (S n) then T else VStr (opposite T))) as Ealt.
      { rewrite Nat.even_succ, <- Nat.negb_even.
        destruct (Nat.even n); simpl; [done|]. by apply opposite_opposite. }
      eexists. split; [exact Hl|]. split; [done|].
      rewrite <- Ealt. split; [exact HT1|]. split.
      + rewrite Hlog, length_app. simpl. lia.
      + intros _. rewrite Hm. unfold strict_eq.
        apply bool_decide_ext. split; congruence. }
  exact H.
Qed.

Lemma clicks_alternate_witness :
  let w := mkWorld (Some (working ∅)) [] (freshPage true) in
  result getCurrentTheme (afterClicks 3 w) = Return (VStr "light") ∧
  length (setItemLog (afterClicks 3 w)) = 3 ∧
  marker (page (afterClicks 3 w)) = false.
Proof.
  intros w.
  assert (result getCurrentTheme w = Return (VStr "dark")) as HT by reflexivity.
  destruct (clicks_alternate 3 w (working ∅) (VStr "dark") eq_refl eq_refl HT
              (or_introl eq_refl)) as (H1 & H2 & H3).
  split; [exact H1|]. split; [exact H2|]. apply H3. lia.
Defined.

(** * Properties of the feed *)

(** ** Links *)

Lemma append_length (s t : string) :
  String.length (s +:+ t) = String.length s + String.length t.
Proof. induction s as [|c s IH]; simpl; [done | f_equal; exact IH]. Qed.

Lemma append_inj_r (s1 s2 t : string) : s1 +:+ t = s2 +:+ t → s1 = s2.
Proof.
  revert s2. induction s1 as [|c1 s1 IH]; intros [|c2 s2] H; simpl in H.
  - done.
  - apply (f_equal String.length) in H.
    rewrite !append_length in H. simpl in H. lia.
  - apply (f_equal String.length) in H.
    rewrite !append_length in H. simpl in H. lia.
  - injection H as -> H. by rewrite (IH s2 H).
Qed.

Lemma link_inj env (p1 p2 : Rss.CollectionEntry) :
  Rss.link (Rss.feedItem env p1) = Rss.link (Rss.feedItem env p2) →
  Rss.slug p1 = Rss.slug p2.
Proof.
  simpl. intros H.
  apply (inj (String.append (Rss.basePath env))) in H.
  apply (inj (String.append "/blog/")) in H.
  by apply append_inj_r in H.
Qed.

Lemma elem_of_feed_items env site collection item :
  item ∈ Rss.items (Rss.GET env site collection) ↔
  ∃ post, post ∈ collection ∧ Content.draft (Rss.data post) = false ∧
          item = Rss.feedItem env post.
Proof.
  simpl. rewrite list_elem_of_fmap. split.
  - intros (post & -> & Hin). apply list_elem_of_filter in Hin as [Hd Hin].
    exists post. repeat split; [done|]. by destruct (Content.draft _).
  - intros (post & Hin & Hd & ->). exists post. split; [done|].
    apply list_elem_of_filter. split; [|done]. by rewrite Hd.
Qed.

(** The feed of rss.xml.ts (lines 6-22) has one item per post that is not a
    draft and nothing else: an item is in the feed exactly when it is the
    item of a collection entry with [draft = false], so a collection of
    drafts gives an empty feed, and the feed is never longer than the
    collection. *)
Theorem GET_items_are_published_posts (env site : option string)
    (collection : list Rss.CollectionEntry) (item : Rss.RSSFeedItem) :
  (item ∈ Rss.items (Rss.GET env site collection) ↔
   ∃ post, post ∈ collection ∧ Content.draft (Rss.data post) = false ∧
           item = Rss.feedItem env post) ∧
  (length (Rss.items (Rss.GET env site collection)) ≤ length collection)%nat ∧
  (Forall (λ post, Content.draft (Rss.data post) = true) collection →
   Rss.items (Rss.GET env site collection) = []).
Proof.
  split; [apply elem_of_feed_items|]. simpl. split.
  - rewrite length_fmap. apply length_filter.
  - intros Hall. induction Hall as [|post c Hd _ IH]; [done|].
    rewrite filter_cons. rewrite Hd. simpl. exact IH.
Qed.

Lemma GET_items_are_published_posts_witness :
  let d := Content.mkPostData "t" "d" 0 None None "General" [] "en" true in
  Rss.items (Rss.GET None None [Rss.mkEntry "a" d; Rss.mkEntry "b" d]) = [].
Proof.
  intros d.
  apply (GET_items_are_published_posts None None
           [Rss.mkEntry "a" d; Rss.mkEntry "b" d]
           (Rss.mkItem "" 0 "" "")).
  repeat constructor.
Defined.

(** Posts with different slugs get different links, for every base path:
    if no slug occurs twice in the collection, no link occurs twice in the
    feed. *)
Theorem GET_links_distinct (env site : option string)
    (collection : list Rss.CollectionEntry) :
  NoDup (Rss.slug <$> collection) →
  NoDup (Rss.link <$> Rss.items (Rss.GET env site collection)).
Proof.
  intros Hnd. simpl.
  induction collection as [|post c IH]; [by rewrite filter_nil; constructor|].
  rewrite fmap_cons in Hnd. apply NoDup_cons in Hnd as [Hnotin Hnd].
  rewrite filter_cons. destruct (decide _) as [Hd|Hd]; [|by apply IH].
  rewrite !fmap_cons. apply NoDup_cons. split; [|by apply IH].
  intros Hin. apply Hnotin.
  apply list_elem_of_fmap in Hin as (item & Hl & Hin).
  apply list_elem_of_fmap in Hin as (post' & -> & Hin).
  apply list_elem_of_filter in Hin as [_ Hin].
  apply list_elem_of_fmap. exists post'. split; [|done].
  by apply (link_inj env).
Qed.

Lemma GET_links_distinct_witness :
  let d := Content.mkPostData "t" "d" 0 None None "General" [] "en" false in
  NoDup (Rss.link <$> Rss.items
           (Rss.GET (Some "/") None [Rss.mkEntry "a" d; Rss.mkEntry "a/" d])).
Proof.
  intros d.
  apply (GET_links_distinct (Some "/") None
           [Rss.mkEntry "a" d; Rss.mkEntry "a/" d]).
  simpl. apply NoDup_cons. split; [|apply NoDup_singleton].
  intros H. apply list_elem_of_singleton in H. discriminate H.
Defined.

(** The two fallbacks of the file differ. The base path (line 4, [||]) also
    replaces an empty variable, so an empty [PUBLIC_BASE_PATH] gives the
    same feed as an unset one and never root-relative links; the site
    (line 12, [??]) is only replaced when [context.site] is missing. A
    non-empty variable is used as it is: every link is that string followed
    by [/blog/<slug>/]. *)
Theorem GET_fallbacks (site : option string)
    (collection : list Rss.CollectionEntry) :
  Rss.GET (Some "") site collection = Rss.GET None site collection ∧
  (∀ env, Rss.basePath env ≠ "") ∧
  (∀ s post, s ≠ "" →
     Rss.link (Rss.feedItem (Some s) post) = s +:+ "/blog/" +:+ Rss.slug post +:+ "/") ∧
  (∀ env, Rss.site (Rss.GET env (Some "") collection) = "" ∧
          Rss.site (Rss.GET env None collection) = "https://tamntaptech1.github.io").
Proof.
  split; [done|]. split; [|split].
  - intros [s|]; simpl; [|done]. by case_bool_decide.
  - intros s post Hne. simpl. by rewrite (bool_decide_eq_false_2 _ Hne).
  - done.
Qed.

Lemma GET_fallbacks_witness :
  Rss.link (Rss.feedItem (Some "/")
              (Rss.mkEntry "welcome"
                 (Content.mkPostData "t" "d" 0 None None "General" [] "en" false)))
    = "//blog/welcome/".
Proof.
  exact (proj1 (proj2 (proj2 (GET_fallbacks None [])))
           "/" (Rss.mkEntry "welcome"
                  (Content.mkPostData "t" "d" 0 None None "General" [] "en" false))
           ltac:(discriminate)).
Defined.

(** ** Order *)

Lemma Forall_filter_weaken {A} (Q P : A → Prop) `{!∀ x, Decision (P x)}
    (l : list A) :
  Forall Q l → Forall Q (filter P l).
Proof.
  rewrite !Forall_forall. intros Hall x Hin.
  apply list_elem_of_filter in Hin as [_ Hin]. by apply Hall.
Qed.

(** [GET] does not sort. The feed lists the published posts in the order of
    the collection: its dates are a sublist of the collection's dates, so
    the feed is ordered by publication date (for any order [R]) whenever
    the collection is. *)
Theorem GET_keeps_collection_order (env site : option string)
    (collection : list Rss.CollectionEntry) (R : relation Z) :
  (Rss.itemPubDate <$> Rss.items (Rss.GET env site collection))
    `sublist_of` ((λ post, Content.pubDate (Rss.data post)) <$> collection) ∧
  (StronglySorted R ((λ post, Content.pubDate (Rss.data post)) <$> collection) →
   StronglySorted R (Rss.itemPubDate <$> Rss.items (Rss.GET env site collection))).
Proof.
  assert (Rss.itemPubDate <$> Rss.items (Rss.GET env site collection)
          = (λ post, Content.pubDate (Rss.data post)) <$>
            filter (λ e, negb (Content.draft (Rss.data e))) collection) as ->.
  { simpl. by rewrite <- list_fmap_compose. }
  split.
  - apply fmap_sublist, sublist_filter.
  - induction collection as [|post c IH]; [done|].
    rewrite fmap_cons. intros Hs. apply StronglySorted_inv in Hs as [Hs Hall].
    rewrite filter_cons. case_decide; [|by apply IH].
    rewrite fmap_cons. constructor; [by apply IH|].
    rewrite Forall_fmap in Hall |- *. by apply Forall_filter_weaken.
Qed.

Lemma GET_keeps_collection_order_witness :
  let d t dr := Content.mkPostData "t" "d" t None None "General" [] "en" dr in
  StronglySorted Z.ge
    (Rss.itemPubDate <$> Rss.items
       (Rss.GET None None [Rss.mkEntry "c" (d 3%Z false);
                           Rss.mkEntry "b" (d 2%Z true);
                           Rss.mkEntry "a" (d 1%Z false)])).
Proof.
  intros d.
  apply (GET_keeps_collection_order None None). simpl.
  repeat first [ apply SSorted_nil | apply SSorted_cons
               | apply Forall_nil_2 | apply Forall_cons_2 | lia ].
Defined.

(** * Properties of the schema *)

Section SchemaProperties.

Context (coerceDate : Content.fmValue → option Z).

#[local] Abbreviation blogSchema := (Content.blogSchema coerceDate).

(** The issues the nine parsers raise, in the order of the schema. *)
Let issues (fm : gmap string Content.fmValue) : list string :=
  Content.issue "title" (Content.z_string (fm !! "title")) ++
  Content.issue "description" (Content.z_string (fm !! "description")) ++
  Content.issue "pubDate" (Content.z_coerce_date coerceDate (fm !! "pubDate")) ++
  Content.issue "updatedDate"
    (Content.z_optional (Content.z_coerce_date coerceDate) (fm !! "updatedDate")) ++
  Content.issue "heroImage"
    (Content.z_optional Content.z_string (fm !! "heroImage")) ++
  Content.issue "category"
    (Content.z_default Content.z_string (Content.FStr "General") (fm !! "category")) ++
  Content.issue "tags"
    (Content.z_default (Content.z_array Content.z_string) (Content.FArr [])
       (fm !! "tags")) ++
  Content.issue "lang"
    (Content.z_default (Content.z_enum ["en"; "vi"]) (Content.FStr "en")
       (fm !! "lang")) ++
  Content.issue "draft"
    (Content.z_default Content.z_boolean (Content.FBool false) (fm !! "draft")).

Lemma blogSchema_inl fm d :
  blogSchema fm = inl d ↔
  Content.z_string (fm !! "title") = Some (Content.title d) ∧
  Content.z_string (fm !! "description") = Some (Content.description d) ∧
  Content.z_coerce_date coerceDate (fm !! "pubDate") = Some (Content.pubDate d) ∧
  Content.z_optional (Content.z_coerce_date coerceDate) (fm !! "updatedDate")
    = Some (Content.updatedDate d) ∧
  Content.z_optional Content.z_string (fm !! "heroImage")
    = Some (Content.heroImage d) ∧
  Content.z_default Content.z_string (Content.FStr "General") (fm !! "category")
    = Some (Content.category d) ∧
  Content.z_default (Content.z_array Content.z_string) (Content.FArr [])
    (fm !! "tags") = Some (Content.tags d) ∧
  Content.z_default (Content.z_enum ["en"; "vi"]) (Content.FStr "en") (fm !! "lang")
    = Some (Content.lang d) ∧
  Content.z_default Content.z_boolean (Content.FBool false) (fm !! "draft")
    = Some (Content.draft d).
Proof.
  unfold Content.blogSchema.
  destruct (Content.z_string (fm !! "title")),
           (Content.z_string (fm !! "description")),
           (Content.z_coerce_date coerceDate (fm !! "pubDate")),
           (Content.z_optional (Content.z_coerce_date coerceDate) (fm !! "updatedDate")),
           (Content.z_optional Content.z_string (fm !! "heroImage")),
           (Content.z_default Content.z_string (Content.FStr "General") (fm !! "category")),
           (Content.z_default (Content.z_array Content.z_string) (Content.FArr [])
              (fm !! "tags")),
           (Content.z_default (Content.z_enum ["en"; "vi"]) (Content.FStr "en")
              (fm !! "lang")),
           (Content.z_default Content.z_boolean (Content.FBool false) (fm !! "draft"));
    (split; [intros [= <-]; done | intros (?&?&?&?&?&?&?&?&?); simplify_eq; try done]).
  by destruct d.
Qed.

Lemma blogSchema_inr fm ks :
  blogSchema fm = inr ks ↔ ks = issues fm ∧ ks ≠ [].
Proof.
  subst issues. unfold Content.blogSchema. simpl.
  destruct (Content.z_string (fm !! "title")),
           (Content.z_string (fm !! "description")),
           (Content.z_coerce_date coerceDate (fm !! "pubDate")),
           (Content.z_optional (Content.z_coerce_date coerceDate) (fm !! "updatedDate")),
           (Content.z_optional Content.z_string (fm !! "heroImage")),
           (Content.z_default Content.z_string (Content.FStr "General") (fm !! "category")),
           (Content.z_default (Content.z_array Content.z_string) (Content.FArr [])
              (fm !! "tags")),
           (Content.z_default (Content.z_enum ["en"; "vi"]) (Content.FStr "en")
              (fm !! "lang")),
           (Content.z_default Content.z_boolean (Content.FBool false) (fm !! "draft"));
    simpl; (split; [intros [= <-]; done | intros [-> Hne]; done]).
Qed.

(** The schema of config.ts (lines 4-17) does not look at keys it does not
    name: adding, changing or removing any other front-matter key changes
    neither the parsed data nor the reported issues. *)
Theorem blogSchema_ignores_unknown_keys
    (fm : gmap string Content.fmValue) (k : string) (v : Content.fmValue) :
  k ∉ Content.schemaKeys →
  blogSchema (<[k := v]> fm) = blogSchema fm ∧
  blogSchema (delete k fm) = blogSchema fm.
Proof.
  intros Hk. unfold Content.schemaKeys in Hk.
  repeat (apply not_elem_of_cons in Hk as [? Hk]).
  unfold Content.blogSchema.
  by rewrite !lookup_insert_ne, !lookup_delete_ne by done.
Qed.

(** What an accepted post looks like: title and description were strings in
    the front matter, the language is ["en"] or ["vi"], and the absent keys
    got the defaults of the schema (category ["General"], no tags, language
    ["en"], not a draft). The post is a draft only when the front matter
    says [draft: true] with a boolean. *)
Theorem blogSchema_accepted (fm : gmap string Content.fmValue) (d : Content.PostData) :
  blogSchema fm = inl d →
  fm !! "title" = Some (Content.FStr (Content.title d)) ∧
  fm !! "description" = Some (Content.FStr (Content.description d)) ∧
  (Content.lang d = "en" ∨ Content.lang d = "vi") ∧
  (Content.draft d = true ↔ fm !! "draft" = Some (Content.FBool true)) ∧
  (fm !! "category" = None → Content.category d = "General") ∧
  (fm !! "tags" = None → Content.tags d = []) ∧
  (fm !! "lang" = None → Content.lang d = "en") ∧
  (fm !! "updatedDate" = None → Content.updatedDate d = None) ∧
  (fm !! "heroImage" = None → Content.heroImage d = None).
Proof.
  intros H. apply blogSchema_inl in H
    as (Ht & Hd & _ & Hu & Hh & Hc & Hts & Hl & Hdr).
  split; [|split; [|split; [|split]]].
  - destruct (fm !! "title") as [[]|]; simplify_eq/=; done.
  - destruct (fm !! "description") as [[]|]; simplify_eq/=; done.
  - destruct (fm !! "lang") as [[| | s | | | |]|]; simplify_eq/=; auto.
    case_bool_decide as Hin; simplify_eq.
    apply elem_of_cons in Hin as [->| Hin]; [by left|].
    apply list_elem_of_singleton in Hin as ->. by right.
  - destruct (fm !! "draft") as [[|b| | | | |]|]; simplify_eq/=;
      (split; [intros Hx; congruence | intros [= Hx]; congruence]).
  - repeat split; intros Hn; rewrite Hn in *; simpl in *;
      try congruence. by injection Hts as <-.
Qed.

(** An empty YAML value ([null]) is not read as a missing key: under any of
    the string, boolean, array or enum keys it is an issue on that key, so
    the post is rejected rather than given the default. *)
Theorem blogSchema_rejects_null (fm : gmap string Content.fmValue) (k : string) :
  k ∈ ["title"; "description"; "heroImage"; "category"; "tags"; "lang"; "draft"] →
  fm !! k = Some Content.FNull →
  ∃ ks, blogSchema fm = inr ks ∧ k ∈ ks.
Proof.
  intros Hk Hnull. exists (issues fm).
  assert (k ∈ issues fm) as Hin.
  { subst issues. simpl.
    repeat (apply elem_of_cons in Hk as [-> | Hk]);
      [..|by apply elem_of_nil in Hk];
      rewrite Hnull; simpl;
      repeat first [ apply list_elem_of_here | apply elem_of_app; right ]. }
  split; [|done]. apply blogSchema_inr. split; [done|].
  intros Hnil. rewrite Hnil in Hin. by apply elem_of_nil in Hin.
Qed.

Lemma toFrontmatter_lookup (d : Content.PostData) :
  Content.toFrontmatter d !! "title" = Some (Content.FStr (Content.title d)) ∧
  Content.toFrontmatter d !! "description"
    = Some (Content.FStr (Content.description d)) ∧
  Content.toFrontmatter d !! "pubDate" = Some (Content.FDate (Content.pubDate d)) ∧
  Content.toFrontmatter d !! "updatedDate" = Content.FDate <$> Content.updatedDate d ∧
  Content.toFrontmatter d !! "heroImage" = Content.FStr <$> Content.heroImage d ∧
  Content.toFrontmatter d !! "category" = Some (Content.FStr (Content.category d)) ∧
  Content.toFrontmatter d !! "tags"
    = Some (Content.FArr (Content.FStr <$> Content.tags d)) ∧
  Content.toFrontmatter d !! "lang" = Some (Content.FStr (Content.lang d)) ∧
  Content.toFrontmatter d !! "draft" = Some (Content.FBool (Content.draft d)).
Proof.
  unfold Content.toFrontmatter.
  destruct (Content.updatedDate d), (Content.heroImage d); simpl;
    repeat split; by simplify_map_eq.
Qed.

(** Round trip. Parsed data written back as front matter parses to itself,
    provided the language is one the schema knows and a date coerces to
    itself. *)
Theorem blogSchema_toFrontmatter (d : Content.PostData) :
  (∀ ms, coerceDate (Content.FDate ms) = Some ms) →
  Content.lang d ∈ ["en"; "vi"] →
  blogSchema (Content.toFrontmatter d) = inl d.
Proof.
  intros Hdate Hlang. apply blogSchema_inl.
  destruct (toFrontmatter_lookup d)
    as (-> & -> & -> & -> & -> & -> & -> & -> & ->). simpl.
  rewrite Hdate, (bool_decide_eq_true_2 _ Hlang).
  repeat split.
  - destruct (Content.updatedDate d); simpl; [by rewrite Hdate | done].
  - by destruct (Content.heroImage d).
  - by apply mapM_fmap_Some.
Qed.

(** The front matter decides about the feed through [draft] alone: an
    accepted post is left out of the feed exactly when its front matter
    says [draft: true]; with the key absent or [false], its item is in the
    feed of every collection that holds the entry. *)
Theorem draft_decides_feed (fm : gmap string Content.fmValue)
    (d : Content.PostData) (slug : string) (env site : option string) :
  blogSchema fm = inl d →
  (fm !! "draft" = Some (Content.FBool true) →
     Rss.items (Rss.GET env site [Rss.mkEntry slug d]) = []) ∧
  (fm !! "draft" ≠ Some (Content.FBool true) →
     ∀ collection, Rss.mkEntry slug d ∈ collection →
       Rss.feedItem env (Rss.mkEntry slug d)
         ∈ Rss.items (Rss.GET env site collection)).
Proof.
  intros H. apply blogSchema_inl in H as (_ & _ & _ & _ & _ & _ & _ & _ & Hdr).
  split.
  - intros Hd. rewrite Hd in Hdr. simpl in Hdr. injection Hdr as Hdr.
    simpl. rewrite filter_cons, filter_nil. simpl. by rewrite <- Hdr.
  - intros Hd collection Hin. apply elem_of_feed_items.
    exists (Rss.mkEntry slug d). split; [done|]. split; [|done]. simpl.
    destruct (fm !! "draft") as [[|[]| | | | |]|]; simplify_eq/=; done.
Qed.

End SchemaProperties.

Lemma blogSchema_ignores_unknown_keys_witness :
  Content.blogSchema coerceDateOnly (<["layout" := Content.FStr "post"]> ∅)
  = Content.blogSchema coerceDateOnly ∅.
Proof.
  apply (blogSchema_ignores_unknown_keys coerceDateOnly
           ∅ "layout" (Content.FStr "post")).
  vm_compute. intros H.
  repeat (apply elem_of_cons in H as [H|H]; [discriminate H|]).
  by apply elem_of_nil in H.
Defined.

Lemma blogSchema_accepted_witness :
  let fm : gmap string Content.fmValue :=
    <["title" := Content.FStr "Hello"]>
      (<["description" := Content.FStr "A post"]>
         (<["pubDate" := Content.FDate 1736467200000]> ∅)) in
  let d := Content.mkPostData "Hello" "A post" 1736467200000 None None
             "General" [] "en" false in
  Content.blogSchema coerceDateOnly fm = inl d ∧
  (Content.draft d = true ↔ fm !! "draft" = Some (Content.FBool true)).
Proof.
  intros fm d.
  assert (Content.blogSchema coerceDateOnly fm = inl d) as E by reflexivity.
  split; [exact E|].
  exact (proj1 (proj2 (proj2 (proj2 (blogSchema_accepted coerceDateOnly fm d E))))).
Defined.

Lemma blogSchema_rejects_null_witness :
  ∃ ks, Content.blogSchema coerceDateOnly (<["draft" := Content.FNull]> ∅) = inr ks ∧
        "draft" ∈ ks.
Proof.
  apply (blogSchema_rejects_null coerceDateOnly
           (<["draft" := Content.FNull]> ∅) "draft").
  - do 6 apply list_elem_of_further. apply list_elem_of_here.
  - reflexivity.
Defined.

Lemma blogSchema_toFrontmatter_witness :
  let d := Content.mkPostData "Hello" "A post" 1736467200000 (Some 1736726400000%Z)
             None "Frontend" ["css"; "ux"] "vi" true in
  Content.blogSchema coerceDateOnly (Content.toFrontmatter d) = inl d.
Proof.
  intros d.
  apply (blogSchema_toFrontmatter coerceDateOnly d).
  - intros ms. reflexivity.
  - apply list_elem_of_further, list_elem_of_here.
Defined.

Lemma draft_decides_feed_witness :
  let fm : gmap string Content.fmValue :=
    <["title" := Content.FStr "Hello"]>
      (<["description" := Content.FStr "A post"]>
         (<["pubDate" := Content.FDate 1736467200000]>
            (<["draft" := Content.FBool true]> ∅))) in
  let d := Content.mkPostData "Hello" "A post" 1736467200000 None None
             "General" [] "en" true in
  Rss.items (Rss.GET None None [Rss.mkEntry "hello" d]) = [].
Proof.
  intros fm d.
  assert (Content.blogSchema coerceDateOnly fm = inl d) as E by reflexivity.
  apply (proj1 (draft_decides_feed coerceDateOnly fm d "hello" None None E)).
  reflexivity.
Defined.
